(** * Py-Bot: the EnhancedPythonMentor of [main.py]

    A shallow embedding of the question classifier, the lookup-or-generate
    responder and the interaction recorder, together with the properties
    the specification states about them.

    Conventions.
    - A Python [str] is a [string]; its characters are the code points
      U+0000..U+00FF, on which [str.lower] and the regex class [\w] are
      the tables below.
    - A table of the SQLite file is the list of its rows in rowid order:
      [INSERT] appends, and a [SELECT] without [ORDER BY] scans from the
      head, so [fetchone] yields the first row that satisfies [WHERE].
    - The columns hold what the code binds to them: text, a boolean, a
      time (an integer here).
    - [datetime.now()] and the pretrained model are external: the record
      [Env] holds them and the methods take it as a variable.
    - A method returns a value or lets an exception through to its
      caller ([outcome]).  The one exception the code can provoke by its
      input is modelled: SQLite's refusal of a LIKE pattern of more than
      50000 bytes.  Failures of the environment (no disk, no model) are
      not. *)

From Stdlib Require Import String Ascii List Bool NArith ZArith Lia.
From stdpp Require Import base option gmap strings.
Import ListNotations.
Local Open Scope string_scope.
Local Open Scope list_scope.

(** ** Python strings *)

Module PyStr.

Definition code (c : ascii) : N := N_of_ascii c.

(** [str.lower] on one character: A-Z, and the upper-case letters of
    U+00C0..U+00DE (all but the multiplication sign U+00D7), move up by 32. *)
Definition lower_char (c : ascii) : ascii :=
  let n := code c in
  if ((65 <=? n) && (n <=? 90) ||
      (192 <=? n) && (n <=? 222) && negb (n =? 215))%N
  then ascii_of_N (n + 32)
  else c.

Fixpoint lower (s : string) : string :=
  match s with
  | EmptyString => EmptyString
  | String c s' => String (lower_char c) (lower s')
  end.

(** [prefix p s]: [s.startswith(p)]. *)
Fixpoint prefix (p s : string) : bool :=
  match p, s with
  | EmptyString, _ => true
  | String a p', String b s' => Ascii.eqb a b && prefix p' s'
  | String _ _, EmptyString => false
  end.

(** [contains s w]: the Python test [w in s]. *)
Fixpoint contains (s w : string) : bool :=
  prefix w s ||
  match s with
  | EmptyString => false
  | String _ s' => contains s' w
  end.

(** [any(word in s for word in words)]. *)
Definition any_in (words : list string) (s : string) : bool :=
  existsb (contains s) words.

Definition nl : string := String (ascii_of_N 10) EmptyString.

End PyStr.

(** ** The fragment of [re] the patterns use *)

Module Re.

Inductive regex : Type :=
| Eps : regex
| Chr : ascii -> regex
| WordB : regex                       (* \b *)
| Cat : regex -> regex -> regex
| Alt : regex -> regex -> regex       (* r1|r2 *)
| Opt : regex -> regex.               (* (r)? *)

(** A run of literal characters. *)
Fixpoint lit (s : string) : regex :=
  match s with
  | EmptyString => Eps
  | String c EmptyString => Chr c
  | String c s' => Cat (Chr c) (lit s')
  end.

(** [\w] for a [str] pattern: alphanumerics (Unicode sense) and [_]. *)
Definition is_word (c : ascii) : bool :=
  let n := PyStr.code c in
  ((48 <=? n) && (n <=? 57) || (65 <=? n) && (n <=? 90) ||
   (n =? 95) || (97 <=? n) && (n <=? 122) ||
   (n =? 170) || (n =? 178) || (n =? 179) || (n =? 181) ||
   (n =? 185) || (n =? 186) || (188 <=? n) && (n <=? 190) ||
   (192 <=? n) && (n <=? 214) || (216 <=? n) && (n <=? 246) ||
   (248 <=? n))%N.

Definition word_before (prev : option ascii) : bool :=
  match prev with Some c => is_word c | None => false end.

Definition word_after (s : string) : bool :=
  match s with String c _ => is_word c | EmptyString => false end.

(** [\b] holds between a word character and a non-word character or an
    end of the subject. *)
Definition at_boundary (prev : option ascii) (s : string) : bool :=
  xorb (word_before prev) (word_after s).

(** [match_at r prev s k]: [r] matches at the position whose left
    neighbour is [prev] and whose remaining subject is [s], and the
    continuation [k] accepts the position where the match ends.  The
    alternatives are tried in the engine's order (left branch first,
    the optional group present first). *)
Fixpoint match_at (r : regex) (prev : option ascii) (s : string)
    (k : option ascii -> string -> bool) : bool :=
  match r with
  | Eps => k prev s
  | Chr c =>
      match s with
      | String d s' => Ascii.eqb c d && k (Some d) s'
      | EmptyString => false
      end
  | WordB => at_boundary prev s && k prev s
  | Cat r1 r2 => match_at r1 prev s (fun p' s' => match_at r2 p' s' k)
  | Alt r1 r2 => match_at r1 prev s k || match_at r2 prev s k
  | Opt r1 => match_at r1 prev s k || k prev s
  end.

Fixpoint search_from (r : regex) (prev : option ascii) (s : string) : bool :=
  match_at r prev s (fun _ _ => true) ||
  match s with
  | EmptyString => false
  | String c s' => search_from r (Some c) s'
  end.

(** Truth value of [re.search(pattern, s)]. *)
Definition search (r : regex) (s : string) : bool := search_from r None s.

End Re.

(** ** The classifier *)

Import Re.

(** [\bword\b] *)
Definition whole_word (r : regex) : regex := Cat WordB (Cat r WordB).

(** [self.concept_patterns], in the insertion order of the dict literal. *)
Definition concept_patterns : list (regex * string) :=
  [ (Alt (whole_word (lit "venv")) (lit "virtual environment"),
       "virtual_environment");
    (whole_word (lit "django"), "django_framework");
    (whole_word (lit "flask"), "flask_framework");
    (whole_word (lit "api"), "api_development");
    (whole_word (lit "deployment"), "deployment");
    (whole_word (lit "docker"), "docker");
    (Cat WordB (Cat (lit "test") (Cat (Opt (lit "ing")) WordB)), "testing");
    (Cat WordB (Cat (lit "debug") (Cat (Opt (lit "ging")) WordB)),
       "debugging") ].

Record Analysis : Type := mkAnalysis { category : string; difficulty : string }.

(** The [for pattern, cat in ...: if re.search(...): category = cat; break]
    loop, started with the value [category] holds before it. *)
Fixpoint category_loop (pats : list (regex * string)) (question_lower : string)
    (category : string) : string :=
  match pats with
  | [] => category
  | (pattern, cat) :: rest =>
      if Re.search pattern question_lower then cat
      else category_loop rest question_lower category
  end.

Definition estimate_difficulty (question_lower : string) : string :=
  if PyStr.any_in ["advanced"; "complex"; "architecture"] question_lower
  then "advanced"
  else if PyStr.any_in ["deploy"; "optimize"; "secure"] question_lower
  then "intermediate"
  else "beginner".

Definition analyze_question (question : string) : Analysis :=
  let question_lower := PyStr.lower question in
  let category := category_loop concept_patterns question_lower "general" in
  let difficulty := estimate_difficulty question_lower in
  mkAnalysis category difficulty.

(** ** Exceptions *)

(** The exceptions the methods let through. *)
Inductive exception : Type :=
| OperationalError (message : string).     (* sqlite3.OperationalError *)

(** What a call comes to: a value, or an exception on its way to the
    caller. *)
Inductive outcome (A : Type) : Type :=
| Ok (a : A)
| Raise (e : exception).

Arguments Ok {A} a.
Arguments Raise {A} e.

Definition outcome_map {A B : Type} (f : A -> B) (o : outcome A) : outcome B :=
  match o with
  | Ok a => Ok (f a)
  | Raise e => Raise e
  end.

(** ** The SQL operators the queries use *)

Module Sql.

(** The LIKE function reads both operands as C strings: up to the first
    NUL character. *)
Fixpoint c_str (s : string) : string :=
  match s with
  | EmptyString => EmptyString
  | String c s' => if (PyStr.code c =? 0)%N then EmptyString else String c (c_str s')
  end.

Definition tolower (c : ascii) : ascii :=
  let n := PyStr.code c in
  if ((65 <=? n) && (n <=? 90))%N then ascii_of_N (n + 32) else c.

(** LIKE compares characters without regard to case, for ASCII only. *)
Definition eq_nocase (c d : ascii) : bool :=
  Ascii.eqb c d ||
  ((PyStr.code c <? 128) && (PyStr.code d <? 128))%N &&
  Ascii.eqb (tolower c) (tolower d).

(** [like_match pat s]: [%] stands for any run of characters, [_] for
    any one character, every other character for itself. *)
Fixpoint like_match (pat : string) : string -> bool :=
  match pat with
  | EmptyString =>
      fun s => match s with EmptyString => true | String _ _ => false end
  | String c pat' =>
      if Ascii.eqb c "%" then
        fix skip (s : string) : bool :=
          like_match pat' s ||
          match s with
          | EmptyString => false
          | String _ s' => skip s'
          end
      else if Ascii.eqb c "_" then
        fun s =>
          match s with
          | EmptyString => false
          | String _ s' => like_match pat' s'
          end
      else
        fun s =>
          match s with
          | EmptyString => false
          | String d s' => eq_nocase c d && like_match pat' s'
          end
  end.

(** The value of [text LIKE pat] when the function evaluates it. *)
Definition like_value (text pat : string) : bool :=
  like_match (c_str pat) (c_str text).

(** SQLITE_MAX_LIKE_PATTERN_LENGTH: the longest pattern, in bytes, the
    LIKE function accepts. *)
Definition max_like_pattern_length : N := 50000.

(** The length in bytes of the text as SQLite holds it, in UTF-8: one
    byte for a character below U+0080, two from there to U+00FF.  The
    bytes after a NUL character count too. *)
Fixpoint utf8_length (s : string) : N :=
  match s with
  | EmptyString => 0
  | String c s' =>
      ((if PyStr.code c <? 128 then 1 else 2) + utf8_length s')%N
  end.

(** [text LIKE pat]: the function refuses a pattern longer than the
    limit before it looks at the text. *)
Definition like (text pat : string) : outcome bool :=
  if (max_like_pattern_length <? utf8_length pat)%N
  then Raise (OperationalError "LIKE or GLOB pattern too complex")
  else Ok (like_value text pat).

(** The text has no NUL character. *)
Fixpoint nul_free (s : string) : bool :=
  match s with
  | EmptyString => true
  | String c s' => negb (PyStr.code c =? 0)%N && nul_free s'
  end.

End Sql.

(** ** The knowledge base *)

(** A row of [qa_pairs]. *)
Module QAPair.
Record t : Type := mk {
  question : string;
  answer : string;
  category : string;
  difficulty : string;
  timestamp : Z
}.
End QAPair.

(** A row of [user_interactions]. *)
Module Interaction.
Record t : Type := mk {
  question : string;
  matched_response : string;
  helpful : bool;
  timestamp : Z
}.
End Interaction.

(** A row of [code_examples]. *)
Module CodeExample.
Record t : Type := mk {
  concept : string;
  code : string;
  explanation : string;
  difficulty : string
}.
End CodeExample.

(** The dict [generate_response] returns. *)
Module Response.
Record t : Type := mk {
  answer : string;
  code_example : option string;
  category : string;
  difficulty : string;
  follow_up_questions : list string
}.
End Response.

(** What the object holds and what it has done to the outside: the three
    tables, the inputs handed to [model.generate] (oldest first) and the
    number of times the clock was read. *)
Record World : Type := mkWorld {
  qa_pairs : list QAPair.t;
  user_interactions : list Interaction.t;
  code_examples : list CodeExample.t;
  generate_calls : list (list Z);
  clock_reads : nat
}.

(** The store before the first run: the three tables exist and are empty. *)
Definition fresh : World := mkWorld [] [] [] [] 0.

(** A method of the object: a computation over the world that returns
    or raises. *)
Definition M (A : Type) : Type := World -> outcome A * World.

Definition ret {A : Type} (a : A) : M A := fun w => (Ok a, w).

(** One statement after the other: an exception of the first skips the
    rest. *)
Definition bind {A B : Type} (m : M A) (f : A -> M B) : M B :=
  fun w =>
    match m w with
    | (Ok a, w') => f a w'
    | (Raise e, w') => (Raise e, w')
    end.

Declare Scope mentor_scope.
Delimit Scope mentor_scope with mentor.
Notation "'let*' x ':=' m 'in' k" := (bind m (fun x => k))
  (at level 10, x name, m at level 100, k at level 200) : mentor_scope.

(** [follow_ups] of [generate_follow_up_questions]. *)
Definition follow_ups : gmap string (list string) :=
  <["virtual_environment" :=
      ["How do I activate the virtual environment?";
       "Should I include venv in git?"]]>
  (<["deployment" :=
      ["How do I set up environment variables?";
       "What are the best practices for production deployment?"]]>
  (<["testing" :=
      ["How do I write unit tests?";
       "What testing framework should I use?"]]> ∅)).

(** [follow_ups.get(category, [])] *)
Definition generate_follow_up_questions (category : string) : list string :=
  default [] (follow_ups !! category).

(** [basic_qa] of [initialize_basic_qa]: question, answer, category,
    difficulty. *)
Definition indent : string := "                ".

Definition basic_qa : list (string * string * string * string) :=
  [ ("How do I start a new Python project?",
     "Here are the steps to start a new Python project:" +:+ PyStr.nl +:+
     indent +:+ "1. Create a new directory for your project" +:+ PyStr.nl +:+
     indent +:+ "2. Set up a virtual environment" +:+ PyStr.nl +:+
     indent +:+ "3. Initialize git repository" +:+ PyStr.nl +:+
     indent +:+ "4. Create requirements.txt" +:+ PyStr.nl +:+
     indent +:+ "5. Set up basic project structure",
     "project_setup", "beginner");
    ("How do I deploy my Python application?",
     "Deployment steps typically include:" +:+ PyStr.nl +:+
     indent +:+ "1. Prepare your application (debug=False, environment variables)"
       +:+ PyStr.nl +:+
     indent +:+ "2. Choose a hosting platform (Heroku, AWS, DigitalOcean)"
       +:+ PyStr.nl +:+
     indent +:+ "3. Set up deployment configuration" +:+ PyStr.nl +:+
     indent +:+ "4. Deploy your application" +:+ PyStr.nl +:+
     indent +:+ "5. Monitor for any issues",
     "deployment", "intermediate") ].

(** What the object reaches outside itself: [clock n] is [datetime.now()]
    at the n-th reading of the clock; the tokenizer and the pretrained
    model work on token ids, and [model_generate n inputs] is [outputs[0]]
    of the call [model.generate(inputs, ...)] made after [n] earlier ones. *)
Record Env : Type := mkEnv {
  clock : nat -> Z;
  tokenizer_encode : string -> list Z;
  model_generate : nat -> list Z -> list Z;
  tokenizer_decode : list Z -> string
}.

Section Mentor.

Variable env : Env.

Local Open Scope mentor_scope.

(** [datetime.now()] *)
Definition now : M Z :=
  fun w =>
    (Ok (clock env (clock_reads w)),
     mkWorld (qa_pairs w) (user_interactions w) (code_examples w)
             (generate_calls w) (S (clock_reads w))).

(** [INSERT INTO qa_pairs (question, answer, category, difficulty,
    timestamp) VALUES (?, ?, ?, ?, ?)] *)
Definition insert_qa_pair (row : QAPair.t) : M unit :=
  fun w =>
    (Ok tt,
     mkWorld (qa_pairs w ++ [row]) (user_interactions w) (code_examples w)
             (generate_calls w) (clock_reads w)).

(** [INSERT INTO user_interactions (question, matched_response, helpful,
    timestamp) VALUES (?, ?, ?, ?)] *)
Definition insert_user_interaction (row : Interaction.t) : M unit :=
  fun w =>
    (Ok tt,
     mkWorld (qa_pairs w) (user_interactions w ++ [row]) (code_examples w)
             (generate_calls w) (clock_reads w)).

(** [WHERE category = ? AND difficulty = ? AND question LIKE ?] on one
    row: LIKE is evaluated for the rows that pass the two comparisons
    only. *)
Definition qa_where (category difficulty pattern : string) (row : QAPair.t)
    : outcome bool :=
  if String.eqb (QAPair.category row) category &&
     String.eqb (QAPair.difficulty row) difficulty
  then Sql.like (QAPair.question row) pattern
  else Ok false.

(** The scan of a [SELECT ... WHERE] up to its first result: the first
    row for which the condition holds, [None] when it holds for none; an
    exception of the condition on a row ends the scan. *)
Fixpoint fetch_first {A : Type} (condition : A -> outcome bool)
    (rows : list A) : outcome (option A) :=
  match rows with
  | [] => Ok None
  | row :: rest =>
      match condition row with
      | Ok true => Ok (Some row)
      | Ok false => fetch_first condition rest
      | Raise e => Raise e
      end
  end.

(** [SELECT answer FROM qa_pairs WHERE ...] followed by [fetchone()]. *)
Definition select_answer (category difficulty pattern : string)
    : M (option string) :=
  fun w =>
    (outcome_map (option_map QAPair.answer)
       (fetch_first (qa_where category difficulty pattern) (qa_pairs w)),
     w).

(** [SELECT code, explanation FROM code_examples WHERE concept = ? LIMIT 1]
    followed by [fetchone()]. *)
Definition select_code_example (concept : string)
    : M (option (string * string)) :=
  fun w =>
    (Ok (option_map (fun e => (CodeExample.code e, CodeExample.explanation e))
           (find (fun e => String.eqb (CodeExample.concept e) concept)
                 (code_examples w))), w).

(** [tokenizer.encode], [model.generate], [tokenizer.decode]. *)
Definition run_model (context : string) : M string :=
  fun w =>
    let inputs := tokenizer_encode env context in
    let outputs := model_generate env (length (generate_calls w)) inputs in
    (Ok (tokenizer_decode env outputs),
     mkWorld (qa_pairs w) (user_interactions w) (code_examples w)
             (generate_calls w ++ [inputs]) (clock_reads w)).

(** The [for qa in basic_qa] loop of [initialize_basic_qa]. *)
Fixpoint insert_all (rows : list (string * string * string * string))
    : M unit :=
  match rows with
  | [] => ret tt
  | (question, answer, category, difficulty) :: rest =>
      let* ts := now in
      let* _ := insert_qa_pair
                  (QAPair.mk question answer category difficulty ts) in
      insert_all rest
  end.

Definition initialize_basic_qa : M unit := insert_all basic_qa.

(** The tables exist already in the model; what is left of
    [setup_knowledge_base] is the seeding of an empty [qa_pairs]. *)
Definition setup_knowledge_base : M unit :=
  fun w =>
    if Nat.eqb (length (qa_pairs w)) 0 then initialize_basic_qa w
    else (Ok tt, w).

Definition get_relevant_code_example (concept : string) : M (option string) :=
  let* result := select_code_example concept in
  match result with
  | Some (code, explanation) =>
      ret (Some ("```python" +:+ PyStr.nl +:+ code +:+ PyStr.nl +:+ "```"
                 +:+ PyStr.nl +:+ explanation))
  | None => ret None
  end.

Definition generate_response (question : string) : M Response.t :=
  let analysis := analyze_question question in
  let* existing_answer :=
    select_answer (category analysis) (difficulty analysis)
                  ("%" +:+ question +:+ "%") in
  let* response :=
    match existing_answer with
    | Some answer => ret answer
    | None =>
        let context :=
          "Python project question: " +:+ question +:+ PyStr.nl +:+
          "Detailed answer:" in
        let* response := run_model context in
        let* ts := now in
        let* _ := insert_qa_pair
                    (QAPair.mk question response (category analysis)
                               (difficulty analysis) ts) in
        ret response
    end in
  let* code_example := get_relevant_code_example (category analysis) in
  ret (Response.mk response code_example (category analysis)
         (difficulty analysis)
         (generate_follow_up_questions (category analysis))).

Definition record_interaction (question response : string) (helpful : bool)
    : M unit :=
  let* ts := now in
  insert_user_interaction (Interaction.mk question response helpful ts).

(** The calls a client can make on the object. *)
Inductive operation : Type :=
| Setup                                   (* setup_knowledge_base, from __init__ *)
| InitializeBasicQA
| GenerateResponse (question : string)
| RecordInteraction (question response : string) (helpful : bool).

Definition run (op : operation) (w : World) : World :=
  match op with
  | Setup => snd (setup_knowledge_base w)
  | InitializeBasicQA => snd (initialize_basic_qa w)
  | GenerateResponse question => snd (generate_response question w)
  | RecordInteraction question response helpful =>
      snd (record_interaction question response helpful w)
  end.

(** A client's calls, one after the other. *)
Definition run_all (ops : list operation) (w : World) : World :=
  fold_left (fun w op => run op w) ops w.

(** The script under [if __name__ == "__main__"]: build the object, answer
    the example question, print the result, record the interaction as
    helpful.  The value is the dict the script prints. *)
Definition main : M Response.t :=
  let* _ := setup_knowledge_base in
  let question := "How do I structure a Flask project for deployment?" in
  let* response := generate_response question in
  let* _ := record_interaction question (Response.answer response) true in
  ret response.

End Mentor.

(** ** Vocabulary of the statements *)

(** [w] occurs in [s]. *)
Definition occurs (w s : string) : Prop := exists a b, s = a +:+ w +:+ b.

(** The last character of [w], and [prev] when [w] is empty: the left
    neighbour of the position after [w]. *)
Fixpoint last_char (prev : option ascii) (w : string) : option ascii :=
  match w with
  | EmptyString => prev
  | String c w' => last_char (Some c) w'
  end.

(** [w] occurs in [s] as a word of its own: no word character touches it
    on either side. *)
Definition delimited (w s : string) : Prop :=
  exists a b,
    s = a +:+ w +:+ b /\
    Re.word_before (last_char None a) = false /\
    Re.word_after b = false.

(** The text with its ASCII capitals made small, as LIKE compares it. *)
Fixpoint fold_ascii (s : string) : string :=
  match s with
  | EmptyString => EmptyString
  | String c s' => String (Sql.tolower c) (fold_ascii s')
  end.

(** What the rule of [concept_patterns] with the given tag looks for. *)
Definition rule_meaning (tag s : string) : Prop :=
  if String.eqb tag "virtual_environment"
  then delimited "venv" s \/ occurs "virtual environment" s
  else if String.eqb tag "django_framework" then delimited "django" s
  else if String.eqb tag "flask_framework" then delimited "flask" s
  else if String.eqb tag "api_development" then delimited "api" s
  else if String.eqb tag "deployment" then delimited "deployment" s
  else if String.eqb tag "docker" then delimited "docker" s
  else if String.eqb tag "testing"
  then delimited "testing" s \/ delimited "test" s
  else if String.eqb tag "debugging"
  then delimited "debugging" s \/ delimited "debug" s
  else False.

(** The [WHERE] clause that [generate_response] issues for the question,
    on one row. *)
Definition qa_match (question : string) : QAPair.t -> outcome bool :=
  qa_where (category (analyze_question question))
           (difficulty (analyze_question question))
           ("%" +:+ question +:+ "%").

(** The row is tagged as the question is classified. *)
Definition tags_match (question : string) (row : QAPair.t) : bool :=
  String.eqb (QAPair.category row) (category (analyze_question question)) &&
  String.eqb (QAPair.difficulty row) (difficulty (analyze_question question)).

(** The row is tagged as the question is classified and its question
    satisfies the pattern made of the question asked. *)
Definition hits (question : string) (row : QAPair.t) : bool :=
  tags_match question row &&
  Sql.like_value (QAPair.question row) ("%" +:+ question +:+ "%").

(** The pattern made of the question is within the limit of LIKE: the
    question has at most 49998 bytes. *)
Definition within_limit (question : string) : bool :=
  (Sql.utf8_length ("%" +:+ question +:+ "%")
   <=? Sql.max_like_pattern_length)%N.

(** What LIKE raises on a longer pattern. *)
Definition too_complex : exception :=
  OperationalError "LIKE or GLOB pattern too complex".

(** The call returned a response whose answer is [text]. *)
Definition answers_with (o : outcome Response.t) (text : string) : Prop :=
  exists r, o = Ok r /\ Response.answer r = text.

(** The prompt [generate_response] builds for the model. *)
Definition prompt (question : string) : string :=
  "Python project question: " +:+ question +:+ PyStr.nl +:+ "Detailed answer:".

(** The text [get_relevant_code_example] makes of a row. *)
Definition format_code_example (e : CodeExample.t) : string :=
  "```python" +:+ PyStr.nl +:+ CodeExample.code e +:+ PyStr.nl +:+ "```"
  +:+ PyStr.nl +:+ CodeExample.explanation e.

(** The code example of a concept in the table as it stands in [w]. *)
Definition code_example_for (concept : string) (w : World) : option string :=
  option_map format_code_example
    (find (fun e => String.eqb (CodeExample.concept e) concept)
          (code_examples w)).

(** The text the model produces for the question at the call that
    follows [w]. *)
Definition generated (env : Env) (question : string) (w : World) : string :=
  tokenizer_decode env
    (model_generate env (length (generate_calls w))
                    (tokenizer_encode env (prompt question))).

(** The enumerations of the data model. *)
Definition categories : list string :=
  [ "virtual_environment"; "django_framework"; "flask_framework";
    "api_development"; "deployment"; "docker"; "testing"; "debugging";
    "general"; "project_setup" ].

Definition difficulties : list string :=
  [ "beginner"; "intermediate"; "advanced" ].

Definition well_tagged (row : QAPair.t) : Prop :=
  In (QAPair.category row) categories /\
  In (QAPair.difficulty row) difficulties.

(** A deterministic stand-in for the model and the clock, to run the
    methods on concrete stores: the tokens are the code points, the model
    answers every prompt with the tokens of "ok", the clock counts. *)
Module Stub.

Definition encode (s : string) : list Z :=
  map (fun c => Z.of_N (N_of_ascii c)) (list_ascii_of_string s).

Definition decode (l : list Z) : string :=
  string_of_list_ascii (map (fun z => ascii_of_N (Z.to_N z)) l).

Definition env : Env :=
  mkEnv Z.of_nat encode (fun _ _ => [111; 107]%Z) decode.

(** The store after the first start of the object. *)
Definition seeded : World := snd (setup_knowledge_base env fresh).

(** A store with one cached deployment answer. *)
Definition deployment_row (question : string) : QAPair.t :=
  QAPair.mk question "Use a checklist." "deployment" "intermediate" 0.

Definition cached (question : string) : World :=
  mkWorld [deployment_row question] [] [] [] 0.

(** A question of 49999 bytes: its pattern has 50001. *)
Definition long_question : string := N.iter 49999 (String "a") EmptyString.

(** A store with one general/beginner answer. *)
Definition general_row : QAPair.t :=
  QAPair.mk "x" "An answer." "general" "beginner" 0.

Definition one_general : World := mkWorld [general_row] [] [] [] 0.

End Stub.

(** * Properties *)

(** ** Strings *)

Lemma append_cons (c : ascii) (a b : string) :
  String c a +:+ b = String c (a +:+ b).
Proof. reflexivity. Qed.

Lemma prefix_spec (p s : string) :
  PyStr.prefix p s = true <-> exists b, s = p +:+ b.
Proof.
  revert s. induction p as [|a p IH]; intros s; simpl.
  - split; [intros _; exists s; reflexivity | reflexivity].
  - destruct s as [|c s]; simpl.
    + split; [discriminate | intros [b Hb]; discriminate].
    + rewrite andb_true_iff, Ascii.eqb_eq, IH. split.
      * intros [-> [b ->]]. exists b. reflexivity.
      * intros [b Hb]. injection Hb as -> ->. split; [reflexivity|]. exists b. reflexivity.
Qed.

Lemma contains_spec (s w : string) :
  PyStr.contains s w = true <-> exists a b, s = a +:+ w +:+ b.
Proof.
  induction s as [|c s IH]; simpl.
  - rewrite orb_false_r, prefix_spec. split.
    + intros [b Hb]. exists "", b. exact Hb.
    + intros [a [b Hab]]. destruct a as [|? ?]; [exists b; exact Hab | discriminate].
  - rewrite orb_true_iff, prefix_spec, IH. split.
    + intros [[b Hb] | [a [b Hab]]].
      * exists "", b. exact Hb.
      * exists (String c a), b. simpl. rewrite Hab. reflexivity.
    + intros [a [b Hab]]. destruct a as [|d a]; simpl in Hab.
      * left. exists b. exact Hab.
      * right. injection Hab as -> ->. exists a, b. reflexivity.
Qed.

(** ** The LIKE operator *)

Example like_ignores_ascii_case : Sql.like "Hello World" "%LO wo%" = Ok true.
Proof. reflexivity. Qed.

Example like_keeps_latin1_case :
  Sql.like (String (ascii_of_N 201) "") (String (ascii_of_N 233) "") = Ok false.
Proof. reflexivity. Qed.

Example like_underscore_is_one_character :
  Sql.like "ab" "%a__b%" = Ok false /\ Sql.like "a+-b" "%a__b%" = Ok true.
Proof. split; reflexivity. Qed.

Example like_stops_at_nul :
  Sql.like ("ab" +:+ String zero "cd") "%cd%" = Ok false.
Proof. reflexivity. Qed.

Lemma like_match_cons (c d : ascii) (pat s : string) :
  Sql.like_match (String c pat) (String d s) =
  if Ascii.eqb c "%" then
    Sql.like_match pat (String d s) || Sql.like_match (String c pat) s
  else if Ascii.eqb c "_" then Sql.like_match pat s
  else Sql.eq_nocase c d && Sql.like_match pat s.
Proof.
  cbn [Sql.like_match].
  destruct (Ascii.eqb c "%") eqn:Hc; [reflexivity|].
  destruct (Ascii.eqb c "_"); reflexivity.
Qed.

Lemma like_match_percent_here (pat s : string) :
  Sql.like_match pat s = true -> Sql.like_match (String "%" pat) s = true.
Proof.
  intros H. destruct s as [|d s].
  - cbn. rewrite H. reflexivity.
  - rewrite like_match_cons. cbn [Ascii.eqb Bool.eqb]. rewrite H. reflexivity.
Qed.

Lemma like_match_percent_skip (pat a s : string) :
  Sql.like_match (String "%" pat) s = true ->
  Sql.like_match (String "%" pat) (a +:+ s) = true.
Proof.
  intros H. induction a as [|d a IH]; [exact H|].
  rewrite append_cons, like_match_cons. cbn [Ascii.eqb Bool.eqb].
  rewrite IH. apply orb_true_r.
Qed.

Lemma like_match_percent_any (s : string) : Sql.like_match "%" s = true.
Proof.
  induction s as [|d s IH]; [reflexivity|].
  rewrite like_match_cons. cbn [Ascii.eqb Bool.eqb]. rewrite IH. apply orb_true_r.
Qed.

(** A text matches itself followed by [%], whatever follows in the
    subject: the wildcards of the text stand for themselves too. *)
Lemma like_match_self (q b : string) :
  Sql.like_match (q +:+ "%") (q +:+ b) = true.
Proof.
  induction q as [|c q IH].
  - apply like_match_percent_any.
  - rewrite !append_cons, like_match_cons.
    destruct (Ascii.eqb c "%") eqn:Hpct.
    + apply Ascii.eqb_eq in Hpct. subst c.
      rewrite (like_match_percent_here _ _ IH). apply orb_true_r.
    + destruct (Ascii.eqb c "_"); [exact IH|].
      unfold Sql.eq_nocase. rewrite Ascii.eqb_refl, IH. reflexivity.
Qed.

Lemma c_str_nul_free (s : string) : Sql.nul_free s = true -> Sql.c_str s = s.
Proof.
  induction s as [|c s IH]; cbn [Sql.nul_free Sql.c_str]; [reflexivity|].
  destruct (PyStr.code c =? 0)%N; cbn; [discriminate|].
  intros H. rewrite (IH H). reflexivity.
Qed.

Lemma nul_free_app (a b : string) :
  Sql.nul_free (a +:+ b) = Sql.nul_free a && Sql.nul_free b.
Proof.
  induction a as [|c a IH]; [reflexivity|].
  rewrite append_cons. cbn [Sql.nul_free]. rewrite IH. apply andb_assoc.
Qed.

(** The direction of the lookup: a stored text in which the input occurs
    satisfies [stored LIKE '%input%'] (texts without NUL). *)
Lemma like_infix (a q b : string) :
  Sql.nul_free (a +:+ q +:+ b) = true ->
  Sql.like_value (a +:+ q +:+ b) ("%" +:+ q +:+ "%") = true.
Proof.
  intros Hnf. unfold Sql.like_value. rewrite (c_str_nul_free _ Hnf).
  rewrite !nul_free_app, !andb_true_iff in Hnf. destruct Hnf as (_ & Hq & _).
  change ("%" +:+ q +:+ "%") with (String "%" (q +:+ "%")).
  rewrite c_str_nul_free
    by (cbn [Sql.nul_free]; rewrite nul_free_app, Hq; reflexivity).
  apply like_match_percent_skip, like_match_percent_here, like_match_self.
Qed.

(** ** The classifier *)

Example search_word_boundaries :
  Re.search (whole_word (lit "api")) "a rest api." = true /\
  Re.search (whole_word (lit "api")) "rapid application" = false /\
  Re.search (whole_word (lit "api")) "my_api" = false.
Proof. repeat split. Qed.

Example search_optional_group :
  Re.search (Cat WordB (Cat (lit "test") (Cat (Opt (lit "ing")) WordB))) "testing" = true /\
  Re.search (Cat WordB (Cat (lit "test") (Cat (Opt (lit "ing")) WordB))) "tests" = false.
Proof. repeat split. Qed.

Example analyze_flask_deployment :
  analyze_question "How do I structure a Flask project for deployment?"
  = mkAnalysis "flask_framework" "intermediate".
Proof. vm_compute. reflexivity. Qed.

Example analyze_testing :
  analyze_question "Is TESTING my api hard? tests"
  = mkAnalysis "api_development" "beginner".
Proof. vm_compute. reflexivity. Qed.

(** The loop returns the tag of the first rule that matches, and the
    initial value when none does. *)
Lemma category_loop_spec (pats : list (regex * string)) (ql category0 : string) :
  (exists pre pattern cat post,
     pats = pre ++ (pattern, cat) :: post /\
     (forall p c, In (p, c) pre -> Re.search p ql = false) /\
     Re.search pattern ql = true /\
     category_loop pats ql category0 = cat)
  \/
  ((forall p c, In (p, c) pats -> Re.search p ql = false) /\
   category_loop pats ql category0 = category0).
Proof.
  induction pats as [|[pattern cat] rest IH]; simpl.
  - right. split; [intros p c []|reflexivity].
  - destruct (Re.search pattern ql) eqn:Hm.
    + left. exists [], pattern, cat, rest. repeat split; try assumption.
      intros p c [].
    + destruct IH as [(pre & p1 & c1 & post & -> & Hpre & Hp1 & Hc1) | [Hnone Hc]].
      * left. exists ((pattern, cat) :: pre), p1, c1, post.
        repeat split; try assumption.
        intros p c [Hin | Hin]; [injection Hin as <- <-; exact Hm | eauto].
      * right. split; [|exact Hc].
        intros p c [Hin | Hin]; [injection Hin as <- <-; exact Hm | eauto].
Qed.

Lemma category_loop_app (pre rest : list (regex * string)) (ql category0 : string) :
  (forall p c, In (p, c) pre -> Re.search p ql = false) ->
  category_loop (pre ++ rest) ql category0 = category_loop rest ql category0.
Proof.
  induction pre as [|[p c] pre IH]; intros Hpre; simpl; [reflexivity|].
  rewrite (Hpre p c (or_introl eq_refl)).
  apply IH. intros p' c' Hin. apply (Hpre p' c'). right. exact Hin.
Qed.

(** C5: the category [analyze_question] returns is the tag of the first
    rule of [concept_patterns], in its order, whose pattern is found in
    the lowercased question, and ['general'] when no rule's pattern is. *)
Theorem analyze_question_category_first_match (question : string) :
  (exists pre pattern cat post,
     concept_patterns = pre ++ (pattern, cat) :: post /\
     (forall p c, In (p, c) pre -> Re.search p (PyStr.lower question) = false) /\
     Re.search pattern (PyStr.lower question) = true /\
     category (analyze_question question) = cat)
  \/
  ((forall p c, In (p, c) concept_patterns ->
      Re.search p (PyStr.lower question) = false) /\
   category (analyze_question question) = "general").
Proof.
  unfold analyze_question. cbn [category].
  apply category_loop_spec.
Qed.

(** C3, as the code has it: a question whose lowercased text matches
    [\bdeployment\b] and none of the four rules that precede that one in
    [concept_patterns] gets the category ['deployment']. *)
Theorem deployment_when_no_earlier_rule_matches (question : string) :
  Re.search (whole_word (lit "deployment")) (PyStr.lower question) = true ->
  (forall p c, In (p, c) (firstn 4 concept_patterns) ->
     Re.search p (PyStr.lower question) = false) ->
  category (analyze_question question) = "deployment".
Proof.
  intros Hdep Hpre.
  unfold analyze_question. cbn [category].
  rewrite <- (firstn_skipn 4 concept_patterns).
  rewrite category_loop_app by exact Hpre.
  change (skipn 4 concept_patterns)
    with ((whole_word (lit "deployment"), "deployment") :: skipn 5 concept_patterns).
  cbn [category_loop]. rewrite Hdep. reflexivity.
Qed.

(** A question that only the deployment rule matches. *)
Lemma deployment_when_no_earlier_rule_matches_witness :
  category (analyze_question "What about Deployment?") = "deployment".
Proof.
  apply deployment_when_no_earlier_rule_matches.
  - vm_compute. reflexivity.
  - intros p c Hin. cbn [firstn concept_patterns In] in Hin.
    repeat (destruct Hin as [Hin | Hin];
            [injection Hin as <- <-; vm_compute; reflexivity|]).
    destruct Hin.
Defined.

(** C3, as the claim states it, fails: the question of the script's own
    example run matches [\bdeployment\b], and the earlier rule for
    [\bflask\b] decides its category. *)
Lemma deployment_pattern_shadowed_by_flask :
  Re.search (whole_word (lit "deployment"))
    (PyStr.lower "How do I structure a Flask project for deployment?") = true /\
  category (analyze_question "How do I structure a Flask project for deployment?")
    = "flask_framework" /\
  category (analyze_question "How do I structure a Flask project for deployment?")
    <> "deployment".
Proof.
  split; [vm_compute; reflexivity|].
  split; [vm_compute; reflexivity|].
  vm_compute. discriminate.
Qed.

(** C6: when the lowercased question contains ['advanced'] or
    ['architecture'], the difficulty is ['advanced'], whatever the
    category. *)
Theorem advanced_or_architecture_is_advanced (question a b : string) :
  PyStr.lower question = a +:+ "advanced" +:+ b \/
  PyStr.lower question = a +:+ "architecture" +:+ b ->
  difficulty (analyze_question question) = "advanced".
Proof.
  intros H. unfold analyze_question. cbn [difficulty].
  unfold estimate_difficulty.
  assert (Hany : PyStr.any_in ["advanced"; "complex"; "architecture"]
                   (PyStr.lower question) = true).
  { unfold PyStr.any_in. cbn [existsb].
    destruct H as [H | H].
    - assert (Hc : PyStr.contains (PyStr.lower question) "advanced" = true)
        by (apply contains_spec; exists a, b; exact H).
      rewrite Hc. reflexivity.
    - assert (Hc : PyStr.contains (PyStr.lower question) "architecture" = true)
        by (apply contains_spec; exists a, b; exact H).
      rewrite Hc. rewrite !orb_true_r. reflexivity. }
  rewrite Hany. reflexivity.
Qed.

(** An advanced question of the Django category. *)
Lemma advanced_or_architecture_is_advanced_witness :
  difficulty (analyze_question "Deploy a Django ARCHITECTURE") = "advanced" /\
  category (analyze_question "Deploy a Django ARCHITECTURE") = "django_framework".
Proof.
  split.
  - apply (advanced_or_architecture_is_advanced _ "deploy a django " "").
    right. vm_compute. reflexivity.
  - vm_compute. reflexivity.
Defined.

(** ** Follow-up questions *)

Lemma follow_ups_keys (category : string) :
  category ∈ dom follow_ups <->
  category = "virtual_environment" \/ category = "deployment" \/
  category = "testing".
Proof.
  unfold follow_ups. rewrite !dom_insert_L, dom_empty_L.
  rewrite !elem_of_union, !elem_of_singleton, elem_of_empty. tauto.
Qed.

(** C7: for ['testing'] the follow-up questions are the two configured
    strings, and for a category that is no key of the table the list is
    empty. *)
Theorem follow_ups_testing_and_unknown :
  generate_follow_up_questions "testing"
  = ["How do I write unit tests?"; "What testing framework should I use?"] /\
  forall category : string,
    category ∉ dom follow_ups -> generate_follow_up_questions category = [].
Proof.
  split.
  - vm_compute. reflexivity.
  - intros c Hc. apply not_elem_of_dom in Hc.
    unfold generate_follow_up_questions. rewrite Hc. reflexivity.
Qed.

(** A category the classifier produces and the table does not list. *)
Lemma follow_ups_testing_and_unknown_witness :
  generate_follow_up_questions "flask_framework" = [].
Proof.
  apply (proj2 follow_ups_testing_and_unknown).
  rewrite follow_ups_keys. intros [H | [H | H]]; congruence.
Defined.

(** ** Scanning a table *)

Lemma find_first {A : Type} (f : A -> bool) (l : list A) (x : A) :
  find f l = Some x ->
  exists pre post,
    l = pre ++ x :: post /\ (forall y, In y pre -> f y = false) /\ f x = true.
Proof.
  induction l as [|a l IH]; simpl; [discriminate|].
  destruct (f a) eqn:Hfa.
  - intros [= ->]. exists [], l. repeat split; [intros y []|exact Hfa].
  - intros Hfind. destruct (IH Hfind) as (pre & post & -> & Hpre & Hx).
    exists (a :: pre), post. repeat split; [|exact Hx].
    intros y [<- | Hin]; [exact Hfa | exact (Hpre y Hin)].
Qed.

Lemma find_app_first {A : Type} (f : A -> bool) (pre post : list A) (x : A) :
  (forall y, In y pre -> f y = false) -> f x = true ->
  find f (pre ++ x :: post) = Some x.
Proof.
  intros Hpre Hx. induction pre as [|a pre IH]; simpl.
  - rewrite Hx. reflexivity.
  - rewrite (Hpre a (or_introl eq_refl)). apply IH.
    intros y Hin. apply Hpre. right. exact Hin.
Qed.

Lemma find_all_false {A : Type} (f : A -> bool) (l : list A) :
  (forall y, In y l -> f y = false) -> find f l = None.
Proof.
  intros Hl. induction l as [|a l IH]; simpl; [reflexivity|].
  rewrite (Hl a (or_introl eq_refl)). apply IH.
  intros y Hin. apply Hl. right. exact Hin.
Qed.

Lemma find_some_exists {A : Type} (f : A -> bool) (l : list A) (x : A) :
  In x l -> f x = true -> exists y, find f l = Some y.
Proof.
  intros Hin Hx. destruct (find f l) as [y|] eqn:Hfind; [exists y; reflexivity|].
  rewrite (find_none f l Hfind x Hin) in Hx. discriminate.
Qed.

(** A scan whose condition raises on no row is a [find]. *)
Lemma fetch_first_find {A : Type} (condition : A -> outcome bool)
    (f : A -> bool) (rows : list A) :
  (forall x, In x rows -> condition x = Ok (f x)) ->
  fetch_first condition rows = Ok (find f rows).
Proof.
  intros Hrows. induction rows as [|a rows IH]; [reflexivity|].
  cbn [fetch_first find]. rewrite (Hrows a (or_introl eq_refl)).
  destruct (f a); [reflexivity|].
  apply IH. intros x Hin. apply Hrows. right. exact Hin.
Qed.

Lemma fetch_first_some {A : Type} (condition : A -> outcome bool)
    (rows : list A) (x : A) :
  fetch_first condition rows = Ok (Some x) ->
  exists pre post,
    rows = pre ++ x :: post /\
    (forall y, In y pre -> condition y = Ok false) /\
    condition x = Ok true.
Proof.
  induction rows as [|a rows IH]; cbn [fetch_first]; [discriminate|].
  destruct (condition a) as [[|]|e] eqn:Ha.
  - intros [= ->]. exists [], rows. repeat split; [intros y []|exact Ha].
  - intros Hscan. destruct (IH Hscan) as (pre & post & -> & Hpre & Hx).
    exists (a :: pre), post. repeat split; [|exact Hx].
    intros y [<- | Hin]; [exact Ha | exact (Hpre y Hin)].
  - discriminate.
Qed.

Lemma fetch_first_none {A : Type} (condition : A -> outcome bool)
    (rows : list A) :
  fetch_first condition rows = Ok None <->
  forall y, In y rows -> condition y = Ok false.
Proof.
  induction rows as [|a rows IH]; cbn [fetch_first].
  - split; [intros _ y [] | reflexivity].
  - destruct (condition a) as [[|]|e] eqn:Ha.
    + split; [discriminate|]. intros H.
      rewrite (H a (or_introl eq_refl)) in Ha. discriminate.
    + rewrite IH. split.
      * intros H y [<- | Hin]; [exact Ha | exact (H y Hin)].
      * intros H y Hin. apply H. right. exact Hin.
    + split; [discriminate|]. intros H.
      rewrite (H a (or_introl eq_refl)) in Ha. discriminate.
Qed.

Lemma fetch_first_raise {A : Type} (condition : A -> outcome bool)
    (rows : list A) (e : exception) :
  fetch_first condition rows = Raise e ->
  exists pre x post,
    rows = pre ++ x :: post /\
    (forall y, In y pre -> condition y = Ok false) /\
    condition x = Raise e.
Proof.
  induction rows as [|a rows IH]; cbn [fetch_first]; [discriminate|].
  destruct (condition a) as [[|]|e'] eqn:Ha.
  - discriminate.
  - intros Hscan. destruct (IH Hscan) as (pre & x & post & -> & Hpre & Hx).
    exists (a :: pre), x, post. repeat split; [|exact Hx].
    intros y [<- | Hin]; [exact Ha | exact (Hpre y Hin)].
  - intros [= ->]. exists [], a, rows. repeat split; [intros y []|exact Ha].
Qed.

Lemma fetch_first_app_first {A : Type} (condition : A -> outcome bool)
    (pre post : list A) (x : A) :
  (forall y, In y pre -> condition y = Ok false) -> condition x = Ok true ->
  fetch_first condition (pre ++ x :: post) = Ok (Some x).
Proof.
  intros Hpre Hx. induction pre as [|a pre IH]; cbn [app fetch_first].
  - rewrite Hx. reflexivity.
  - rewrite (Hpre a (or_introl eq_refl)). apply IH.
    intros y Hin. apply Hpre. right. exact Hin.
Qed.

(** ** The lookup and the limit of LIKE *)

Lemma like_within (text pat : string) :
  (Sql.utf8_length pat <=? Sql.max_like_pattern_length)%N = true ->
  Sql.like text pat = Ok (Sql.like_value text pat).
Proof.
  intros Hle. unfold Sql.like. rewrite N.ltb_antisym, Hle. reflexivity.
Qed.

Lemma like_beyond (text pat : string) :
  (Sql.utf8_length pat <=? Sql.max_like_pattern_length)%N = false ->
  Sql.like text pat = Raise too_complex.
Proof.
  intros Hle. unfold Sql.like. rewrite N.ltb_antisym, Hle. reflexivity.
Qed.

(** LIKE gives a value exactly when the pattern is within the limit. *)
Lemma like_ok (text pat : string) (b : bool) :
  Sql.like text pat = Ok b <->
  (Sql.utf8_length pat <=? Sql.max_like_pattern_length)%N = true /\
  Sql.like_value text pat = b.
Proof.
  destruct (Sql.utf8_length pat <=? Sql.max_like_pattern_length)%N eqn:Hle.
  - rewrite (like_within text pat Hle). split.
    + intros [= <-]. split; reflexivity.
    + intros [_ <-]. reflexivity.
  - rewrite (like_beyond text pat Hle). split; [discriminate|].
    intros [H _]. discriminate.
Qed.

Lemma qa_match_within (question : string) (row : QAPair.t) :
  within_limit question = true -> qa_match question row = Ok (hits question row).
Proof.
  intros Hle. unfold qa_match, qa_where, hits, tags_match.
  destruct (_ && _); [|reflexivity].
  apply like_within. exact Hle.
Qed.

Lemma qa_match_beyond (question : string) (row : QAPair.t) :
  within_limit question = false ->
  qa_match question row =
  if tags_match question row then Raise too_complex else Ok false.
Proof.
  intros Hle. unfold qa_match, qa_where, tags_match.
  destruct (_ && _); [|reflexivity].
  apply like_beyond. exact Hle.
Qed.

(** The condition holds on a row exactly when the row is tagged as the
    question is classified and LIKE, within its limit, finds the pattern
    in the stored question. *)
Lemma qa_match_true (question : string) (row : QAPair.t) :
  qa_match question row = Ok true <->
  QAPair.category row = category (analyze_question question) /\
  QAPair.difficulty row = difficulty (analyze_question question) /\
  Sql.like (QAPair.question row) ("%" +:+ question +:+ "%") = Ok true.
Proof.
  unfold qa_match, qa_where. rewrite <- !String.eqb_eq.
  destruct (String.eqb (QAPair.category row) _);
    destruct (String.eqb (QAPair.difficulty row) _); cbn [andb];
    (split; [intros H | intros (H1 & H2 & H3)]);
    try discriminate; try exact H3.
  repeat split. exact H.
Qed.

Lemma qa_match_true_hits (question : string) (row : QAPair.t) :
  qa_match question row = Ok true ->
  within_limit question = true /\ hits question row = true.
Proof.
  intros Hm. destruct (within_limit question) eqn:Hle.
  - rewrite (qa_match_within question row Hle) in Hm.
    injection Hm as Hm. split; [reflexivity | exact Hm].
  - rewrite (qa_match_beyond question row Hle) in Hm.
    destruct (tags_match question row); discriminate.
Qed.

Lemma fetch_first_within (question : string) (rows : list QAPair.t) :
  within_limit question = true ->
  fetch_first (qa_match question) rows = Ok (find (hits question) rows).
Proof.
  intros Hle. apply fetch_first_find.
  intros row _. apply qa_match_within. exact Hle.
Qed.

(** Beyond the limit the lookup raises as soon as it meets a row tagged
    as the question is classified, and finds nothing otherwise. *)
Lemma fetch_first_beyond (question : string) (rows : list QAPair.t) :
  within_limit question = false ->
  fetch_first (qa_match question) rows =
  if existsb (tags_match question) rows then Raise too_complex else Ok None.
Proof.
  intros Hle. induction rows as [|row rows IH]; [reflexivity|].
  cbn [fetch_first existsb]. rewrite (qa_match_beyond question row Hle).
  destruct (tags_match question row); [reflexivity | exact IH].
Qed.

(** ** The responder *)

Section MentorProperties.

Variable env : Env.

Lemma get_relevant_code_example_eq (concept : string) (w : World) :
  get_relevant_code_example concept w = (Ok (code_example_for concept w), w).
Proof.
  unfold get_relevant_code_example, select_code_example, bind, code_example_for.
  destruct (find _ (code_examples w)) as [e|]; reflexivity.
Qed.

(** A hit: the stored answer is reused and the world is untouched. *)
Lemma generate_response_hit (question : string) (w : World) (row : QAPair.t) :
  fetch_first (qa_match question) (qa_pairs w) = Ok (Some row) ->
  generate_response env question w =
  (Ok (Response.mk (QAPair.answer row)
         (code_example_for (category (analyze_question question)) w)
         (category (analyze_question question))
         (difficulty (analyze_question question))
         (generate_follow_up_questions (category (analyze_question question)))),
   w).
Proof.
  intros Hscan. unfold qa_match in Hscan.
  unfold generate_response, bind, select_answer.
  rewrite Hscan. cbn [outcome_map option_map ret].
  rewrite get_relevant_code_example_eq. reflexivity.
Qed.

(** A miss: one call of the model, one reading of the clock, one row. *)
Lemma generate_response_miss (question : string) (w : World) :
  fetch_first (qa_match question) (qa_pairs w) = Ok None ->
  generate_response env question w =
  (Ok (Response.mk (generated env question w)
         (code_example_for (category (analyze_question question)) w)
         (category (analyze_question question))
         (difficulty (analyze_question question))
         (generate_follow_up_questions (category (analyze_question question)))),
   mkWorld
     (qa_pairs w ++
      [QAPair.mk question (generated env question w)
         (category (analyze_question question))
         (difficulty (analyze_question question))
         (clock env (clock_reads w))])
     (user_interactions w) (code_examples w)
     (generate_calls w ++ [tokenizer_encode env (prompt question)])
     (S (clock_reads w))).
Proof.
  intros Hscan. unfold qa_match in Hscan.
  unfold generate_response, bind, select_answer.
  rewrite Hscan. cbn [outcome_map option_map ret].
  unfold run_model, now, insert_qa_pair, ret. cbv beta iota zeta.
  rewrite get_relevant_code_example_eq. reflexivity.
Qed.

(** An exception of the lookup is the outcome of the call: nothing is
    generated and nothing is written. *)
Lemma generate_response_raise (question : string) (w : World) (e : exception) :
  fetch_first (qa_match question) (qa_pairs w) = Raise e ->
  generate_response env question w = (Raise e, w).
Proof.
  intros Hscan. unfold qa_match in Hscan.
  unfold generate_response, bind, select_answer.
  rewrite Hscan. reflexivity.
Qed.

(** C4, as the code has it: when the lookup runs through [qa_pairs] and
    its condition is false on every row, the model is called exactly
    once, exactly one row is added to [qa_pairs], and that row holds the
    question, the generated text, and the category and difficulty
    [analyze_question] gave; the generated text is the answer returned. *)
Theorem miss_generates_once_and_stores_one_row (question : string) (w : World) :
  (forall row, In row (qa_pairs w) -> qa_match question row = Ok false) ->
  generate_calls (snd (generate_response env question w))
    = generate_calls w ++ [tokenizer_encode env (prompt question)] /\
  qa_pairs (snd (generate_response env question w))
    = qa_pairs w ++
      [QAPair.mk question (generated env question w)
         (category (analyze_question question))
         (difficulty (analyze_question question))
         (clock env (clock_reads w))] /\
  answers_with (fst (generate_response env question w))
               (generated env question w).
Proof.
  intros Hnone. apply fetch_first_none in Hnone.
  rewrite (generate_response_miss question w Hnone).
  repeat split. eexists. split; reflexivity.
Qed.

(** C2, as the code has it: the lookup is [stored LIKE '%input%'], so it
    is the input that has to occur in the stored question, and LIKE has
    to accept the pattern.  When a deployment/intermediate row does
    satisfy it for a question classified the same, the model is not
    called, nothing is written, and the answer is that of the first row
    of [qa_pairs] that satisfies the lookup: the row's own answer when no
    earlier row does. *)
Theorem stored_answer_reused_without_generation
    (question : string) (w : World) (pre post : list QAPair.t) (row : QAPair.t) :
  qa_pairs w = pre ++ row :: post ->
  QAPair.category row = "deployment" ->
  QAPair.difficulty row = "intermediate" ->
  analyze_question question = mkAnalysis "deployment" "intermediate" ->
  Sql.like (QAPair.question row) ("%" +:+ question +:+ "%") = Ok true ->
  generate_calls (snd (generate_response env question w)) = generate_calls w /\
  snd (generate_response env question w) = w /\
  (exists pre0 first post0,
     qa_pairs w = pre0 ++ first :: post0 /\
     (forall r, In r pre0 -> qa_match question r = Ok false) /\
     qa_match question first = Ok true /\
     answers_with (fst (generate_response env question w))
                  (QAPair.answer first)) /\
  ((forall r, In r pre -> qa_match question r = Ok false) ->
   answers_with (fst (generate_response env question w))
                (QAPair.answer row)).
Proof.
  intros Hw Hcat Hdiff Han Hlike.
  assert (Hrow : qa_match question row = Ok true).
  { apply qa_match_true. rewrite Han. cbn [category difficulty].
    repeat split; assumption. }
  destruct (qa_match_true_hits question row Hrow) as [Hle Hhit].
  assert (Hin : In row (qa_pairs w)).
  { rewrite Hw. apply in_or_app. right. left. reflexivity. }
  destruct (find_some_exists _ _ _ Hin Hhit) as [first Hfind].
  assert (Hscan : fetch_first (qa_match question) (qa_pairs w) = Ok (Some first))
    by (rewrite (fetch_first_within question _ Hle), Hfind; reflexivity).
  rewrite (generate_response_hit question w first Hscan). cbn [fst snd].
  repeat split.
  - destruct (fetch_first_some _ _ _ Hscan) as (pre0 & post0 & Hsplit & Hpre0 & Hfirst).
    exists pre0, first, post0. repeat split; try assumption.
    eexists. split; reflexivity.
  - intros Hpre. rewrite Hw in Hscan.
    rewrite (fetch_first_app_first _ _ _ _ Hpre Hrow) in Hscan.
    injection Hscan as <-. eexists. split; reflexivity.
Qed.

(** C8: when [generate_response] returns, the code example of the
    response is made of the first row of [code_examples] whose concept is
    the resolved category, as the fenced code followed by the
    explanation, and is [None] when there is no such row.  It does not
    return only when the lookup raises: the pattern is beyond the limit of
    LIKE and a row of [qa_pairs] is tagged as the question is classified. *)
Theorem code_example_is_first_stored_match (question : string) (w : World) :
  (exists r,
     fst (generate_response env question w) = Ok r /\
     ((exists pre e post,
         code_examples w = pre ++ e :: post /\
         (forall e', In e' pre ->
            CodeExample.concept e' <> category (analyze_question question)) /\
         CodeExample.concept e = category (analyze_question question) /\
         Response.code_example r
           = Some ("```python" +:+ PyStr.nl +:+ CodeExample.code e +:+ PyStr.nl
                   +:+ "```" +:+ PyStr.nl +:+ CodeExample.explanation e))
      \/
      ((forall e, In e (code_examples w) ->
          CodeExample.concept e <> category (analyze_question question)) /\
       Response.code_example r = None)))
  \/
  (fst (generate_response env question w) = Raise too_complex /\
   within_limit question = false /\
   exists row, In row (qa_pairs w) /\ tags_match question row = true).
Proof.
  assert (Hce :
    (exists pre e post,
       code_examples w = pre ++ e :: post /\
       (forall e', In e' pre ->
          CodeExample.concept e' <> category (analyze_question question)) /\
       CodeExample.concept e = category (analyze_question question) /\
       code_example_for (category (analyze_question question)) w
         = Some ("```python" +:+ PyStr.nl +:+ CodeExample.code e +:+ PyStr.nl
                 +:+ "```" +:+ PyStr.nl +:+ CodeExample.explanation e))
    \/
    ((forall e, In e (code_examples w) ->
        CodeExample.concept e <> category (analyze_question question)) /\
     code_example_for (category (analyze_question question)) w = None)).
  { unfold code_example_for.
    destruct (find _ (code_examples w)) as [e|] eqn:Hfind.
    - left. destruct (find_first _ _ _ Hfind) as (pre & post & Hsplit & Hpre & He).
      exists pre, e, post. repeat split.
      + exact Hsplit.
      + intros e' Hin Heq. apply Hpre in Hin.
        apply String.eqb_neq in Hin. contradiction.
      + apply String.eqb_eq. exact He.
    - right. split; [|reflexivity].
      intros e Hin Heq. apply (find_none _ _ Hfind) in Hin.
      apply String.eqb_neq in Hin. contradiction. }
  destruct (fetch_first (qa_match question) (qa_pairs w)) as [[row|]|e] eqn:Hscan.
  - left. rewrite (generate_response_hit question w row Hscan).
    eexists. split; [reflexivity | exact Hce].
  - left. rewrite (generate_response_miss question w Hscan).
    eexists. split; [reflexivity | exact Hce].
  - right. rewrite (generate_response_raise question w e Hscan). cbn [fst].
    destruct (within_limit question) eqn:Hle.
    + rewrite (fetch_first_within question _ Hle) in Hscan. discriminate.
    + rewrite (fetch_first_beyond question _ Hle) in Hscan.
      destruct (existsb (tags_match question) (qa_pairs w)) eqn:Hex;
        [|discriminate].
      injection Hscan as <-. repeat split.
      apply existsb_exists in Hex. exact Hex.
Qed.

(** C10: [record_interaction] appends one row to [user_interactions],
    holding the question, the response, the flag and the time of the
    call, and leaves [qa_pairs] and [code_examples] as they were. *)
Theorem record_interaction_appends_one_row
    (question response : string) (helpful : bool) (w : World) :
  user_interactions (snd (record_interaction env question response helpful w))
    = user_interactions w ++
      [Interaction.mk question response helpful (clock env (clock_reads w))] /\
  qa_pairs (snd (record_interaction env question response helpful w))
    = qa_pairs w /\
  code_examples (snd (record_interaction env question response helpful w))
    = code_examples w.
Proof.
  repeat split.
Qed.

(** *** What is written to [qa_pairs] *)

Lemma category_loop_range (pats : list (regex * string)) (ql category0 : string) :
  category_loop pats ql category0 = category0 \/
  In (category_loop pats ql category0) (map snd pats).
Proof.
  induction pats as [|[pattern cat] rest IH]; simpl; [left; reflexivity|].
  destruct (Re.search pattern ql).
  - right. left. reflexivity.
  - destruct IH as [IH | IH]; [left; exact IH | right; right; exact IH].
Qed.

Lemma analyze_question_category_known (question : string) :
  In (category (analyze_question question)) categories.
Proof.
  unfold analyze_question. cbn [category].
  destruct (category_loop_range concept_patterns (PyStr.lower question) "general")
    as [-> | Hin].
  - unfold categories. cbn [In]. tauto.
  - revert Hin. generalize (category_loop concept_patterns (PyStr.lower question) "general").
    intros c Hin. unfold concept_patterns in Hin. cbn [map snd In] in Hin.
    unfold categories. cbn [In]. tauto.
Qed.

Lemma analyze_question_difficulty_known (question : string) :
  In (difficulty (analyze_question question)) difficulties.
Proof.
  unfold analyze_question, estimate_difficulty. cbn [difficulty].
  unfold difficulties. cbn [In].
  destruct (PyStr.any_in _ _); [tauto|].
  destruct (PyStr.any_in _ _); tauto.
Qed.

Lemma initialize_basic_qa_rows (w : World) :
  exists ts1 ts2,
    qa_pairs (snd (initialize_basic_qa env w)) =
    qa_pairs w ++
    map (fun '(r, ts) =>
           let '(question, answer, category, difficulty) := r in
           QAPair.mk question answer category difficulty ts)
        (combine basic_qa [ts1; ts2]).
Proof.
  exists (clock env (clock_reads w)), (clock env (S (clock_reads w))).
  unfold initialize_basic_qa, basic_qa.
  cbn [insert_all combine map]. unfold bind, now, insert_qa_pair, ret.
  cbn [snd qa_pairs clock_reads]. rewrite <- app_assoc. reflexivity.
Qed.

Lemma initialize_basic_qa_well_tagged (w : World) :
  exists added,
    qa_pairs (snd (initialize_basic_qa env w)) = qa_pairs w ++ added /\
    Forall well_tagged added.
Proof.
  destruct (initialize_basic_qa_rows w) as (ts1 & ts2 & Hrows).
  eexists. split; [exact Hrows|].
  unfold basic_qa. cbn [combine map].
  repeat constructor; cbn [QAPair.category QAPair.difficulty];
    unfold categories, difficulties; cbn [In]; tauto.
Qed.

(** C9: every call appends to [qa_pairs] (the rows that were there stay,
    in place and unchanged), and every row it appends, by seeding or by
    caching a generated answer, has its category among the ten of the
    data model and its difficulty among the three. *)
Theorem qa_pairs_only_grows_with_well_tagged_rows (op : operation) (w : World) :
  exists added,
    qa_pairs (run env op w) = qa_pairs w ++ added /\
    Forall well_tagged added.
Proof.
  destruct op as [| |question|question response helpful]; cbn [run].
  - unfold setup_knowledge_base.
    destruct (Nat.eqb (length (qa_pairs w)) 0).
    + apply initialize_basic_qa_well_tagged.
    + exists []. split; [symmetry; apply app_nil_r | constructor].
  - apply initialize_basic_qa_well_tagged.
  - destruct (fetch_first (qa_match question) (qa_pairs w)) as [[row|]|e] eqn:Hscan.
    + rewrite (generate_response_hit question w row Hscan).
      exists []. split; [symmetry; apply app_nil_r | constructor].
    + rewrite (generate_response_miss question w Hscan).
      eexists. split; [reflexivity|].
      constructor; [|constructor]. split.
      * apply analyze_question_category_known.
      * apply analyze_question_difficulty_known.
    + rewrite (generate_response_raise question w e Hscan).
      exists []. split; [symmetry; apply app_nil_r | constructor].
  - exists []. split; [symmetry; apply app_nil_r | constructor].
Qed.

(** *** The seeded deployment question *)

(** C1, on the code: after the first start, the question of the seeded
    deployment pair is classified ['general'] (the word is [deploy], the
    rule looks for [deployment]), so the lookup misses the seeded row,
    the model is called once and its text is the answer. *)
Theorem seeded_deploy_question_is_general_and_generated :
  analyze_question "How do I deploy my Python application?"
    = mkAnalysis "general" "intermediate" /\
  fetch_first (qa_match "How do I deploy my Python application?")
              (qa_pairs (snd (setup_knowledge_base env fresh))) = Ok None /\
  (exists r,
     fst (generate_response env "How do I deploy my Python application?"
            (snd (setup_knowledge_base env fresh))) = Ok r /\
     Response.category r = "general" /\
     Response.difficulty r = "intermediate" /\
     Response.answer r
       = tokenizer_decode env
           (model_generate env 0
              (tokenizer_encode env
                 (prompt "How do I deploy my Python application?")))) /\
  generate_calls
    (snd (generate_response env "How do I deploy my Python application?"
            (snd (setup_knowledge_base env fresh))))
    = [tokenizer_encode env (prompt "How do I deploy my Python application?")].
Proof.
  assert (Hscan : fetch_first (qa_match "How do I deploy my Python application?")
                    (qa_pairs (snd (setup_knowledge_base env fresh))) = Ok None)
    by (vm_compute; reflexivity).
  split; [vm_compute; reflexivity|].
  split; [exact Hscan|].
  rewrite (generate_response_miss _ _ Hscan).
  split; [|reflexivity].
  eexists. split; [reflexivity|]. repeat split.
Qed.

End MentorProperties.

(** ** The responder on concrete stores *)

(** A question the seeded store has no answer for. *)
Lemma miss_generates_once_and_stores_one_row_witness :
  generate_calls
    (snd (generate_response Stub.env "What is a list?" Stub.seeded))
    = [Stub.encode (prompt "What is a list?")] /\
  length (qa_pairs
            (snd (generate_response Stub.env "What is a list?" Stub.seeded)))
    = 3 /\
  answers_with
    (fst (generate_response Stub.env "What is a list?" Stub.seeded)) "ok".
Proof.
  destruct (miss_generates_once_and_stores_one_row
              Stub.env "What is a list?" Stub.seeded)
    as (Hcalls & Hrows & Hanswer).
  - apply fetch_first_none. vm_compute. reflexivity.
  - rewrite Hcalls, Hrows. repeat split. exact Hanswer.
Defined.

(** The input occurs, up to case, in the stored question. *)
Lemma stored_answer_reused_without_generation_witness :
  answers_with
    (fst (generate_response Stub.env "deployment"
            (Stub.cached "Notes on Deployment"))) "Use a checklist." /\
  generate_calls
    (snd (generate_response Stub.env "deployment"
            (Stub.cached "Notes on Deployment"))) = [].
Proof.
  destruct (stored_answer_reused_without_generation
              Stub.env "deployment" (Stub.cached "Notes on Deployment")
              [] [] (Stub.deployment_row "Notes on Deployment"))
    as (Hcalls & _ & _ & Hanswer);
    try (vm_compute; reflexivity).
  split; [apply Hanswer; intros r [] | exact Hcalls].
Defined.

(** C2, as the claim states it, fails: the input ["deployment steps"]
    contains the stored question ["deployment"] and is classified like the
    stored row, and yet the lookup misses the row: the model is called and
    its text, not the stored answer, is returned. *)
Lemma input_containing_stored_question_misses :
  (exists a b,
     "deployment steps" = a +:+ QAPair.question (Stub.deployment_row "deployment") +:+ b) /\
  In (Stub.deployment_row "deployment") (qa_pairs (Stub.cached "deployment")) /\
  analyze_question "deployment steps" = mkAnalysis "deployment" "intermediate" /\
  (exists r,
     fst (generate_response Stub.env "deployment steps" (Stub.cached "deployment"))
       = Ok r /\
     Response.answer r <> QAPair.answer (Stub.deployment_row "deployment")) /\
  generate_calls
    (snd (generate_response Stub.env "deployment steps" (Stub.cached "deployment")))
    = [Stub.encode (prompt "deployment steps")].
Proof.
  split; [exists "", " steps"; reflexivity|].
  split; [left; reflexivity|].
  split; [vm_compute; reflexivity|].
  split; [|vm_compute; reflexivity].
  eexists. split; [vm_compute; reflexivity|]. vm_compute. discriminate.
Qed.

(** *** A question beyond the limit of LIKE *)

Lemma long_question_analysis :
  analyze_question Stub.long_question = mkAnalysis "general" "beginner".
Proof. vm_compute. reflexivity. Qed.

Lemma long_question_beyond : within_limit Stub.long_question = false.
Proof. vm_compute. reflexivity. Qed.

(** C4, as the claim states it, fails: the question of 49999 bytes is
    classified general/beginner, the one stored row is tagged so but is
    no match of it in any sense (neither text occurs in the other, nor
    does the pattern describe the stored question), and yet the model is
    not called and no row is written: LIKE refuses the pattern of 50001
    bytes and the call raises. *)
Lemma long_question_raises_before_generation :
  analyze_question Stub.long_question = mkAnalysis "general" "beginner" /\
  qa_pairs Stub.one_general = [Stub.general_row] /\
  ~ occurs Stub.long_question (QAPair.question Stub.general_row) /\
  ~ occurs (QAPair.question Stub.general_row) Stub.long_question /\
  Sql.like_value (QAPair.question Stub.general_row)
    ("%" +:+ Stub.long_question +:+ "%") = false /\
  generate_response Stub.env Stub.long_question Stub.one_general
    = (Raise too_complex, Stub.one_general) /\
  generate_calls
    (snd (generate_response Stub.env Stub.long_question Stub.one_general)) = [] /\
  qa_pairs
    (snd (generate_response Stub.env Stub.long_question Stub.one_general))
    = qa_pairs Stub.one_general.
Proof.
  assert (Hraise : generate_response Stub.env Stub.long_question Stub.one_general
                   = (Raise too_complex, Stub.one_general)).
  { apply generate_response_raise.
    rewrite (fetch_first_beyond _ _ long_question_beyond).
    cbn [Stub.one_general qa_pairs existsb]. unfold tags_match.
    rewrite long_question_analysis. reflexivity. }
  split; [exact long_question_analysis|].
  split; [reflexivity|].
  split; [intros H; apply contains_spec in H; vm_compute in H; discriminate|].
  split; [intros H; apply contains_spec in H; vm_compute in H; discriminate|].
  split; [vm_compute; reflexivity|].
  rewrite Hraise. repeat split.
Qed.
(** * Further properties of the code *)

(** ** Letter case *)

Lemma lower_char_idempotent (c : ascii) :
  PyStr.lower_char (PyStr.lower_char c) = PyStr.lower_char c.
Proof.
  destruct c as [b0 b1 b2 b3 b4 b5 b6 b7].
  destruct b0, b1, b2, b3, b4, b5, b6, b7; reflexivity.
Qed.

Lemma lower_idempotent (s : string) : PyStr.lower (PyStr.lower s) = PyStr.lower s.
Proof.
  induction s as [|c s IH]; [reflexivity|].
  cbn [PyStr.lower]. rewrite lower_char_idempotent, IH. reflexivity.
Qed.

(** X1: the classifier does not see letter case: a question and its
    lowercased text get the same category and the same difficulty. *)
Theorem analyze_question_ignores_case (question : string) :
  analyze_question (PyStr.lower question) = analyze_question question.
Proof.
  unfold analyze_question. rewrite lower_idempotent. reflexivity.
Qed.

(** ** The difficulty keywords *)

Lemma contains_occurs (s w : string) :
  PyStr.contains s w = true <-> occurs w s.
Proof. apply contains_spec. Qed.

Lemma contains_not_occurs (s w : string) :
  PyStr.contains s w = false <-> ~ occurs w s.
Proof.
  rewrite <- contains_occurs. destruct (PyStr.contains s w); split; intros H.
  - discriminate.
  - exfalso. apply H. reflexivity.
  - discriminate.
  - reflexivity.
Qed.

Lemma any_in_three (w1 w2 w3 s : string) :
  PyStr.any_in [w1; w2; w3] s = true <->
  occurs w1 s \/ occurs w2 s \/ occurs w3 s.
Proof.
  unfold PyStr.any_in. cbn [existsb].
  rewrite !orb_true_iff, !contains_occurs. intuition discriminate.
Qed.

(** X2: the decision table of the difficulty.  It is ['advanced'] exactly
    when one of advanced, complex, architecture occurs in the lowercased
    question; ['intermediate'] exactly when none of those does and one of
    deploy, optimize, secure does; ['beginner'] exactly when none of the
    six occurs. *)
Theorem difficulty_decision_table (question : string) :
  (difficulty (analyze_question question) = "advanced" <->
   occurs "advanced" (PyStr.lower question) \/
   occurs "complex" (PyStr.lower question) \/
   occurs "architecture" (PyStr.lower question)) /\
  (difficulty (analyze_question question) = "intermediate" <->
   ~ (occurs "advanced" (PyStr.lower question) \/
      occurs "complex" (PyStr.lower question) \/
      occurs "architecture" (PyStr.lower question)) /\
   (occurs "deploy" (PyStr.lower question) \/
    occurs "optimize" (PyStr.lower question) \/
    occurs "secure" (PyStr.lower question))) /\
  (difficulty (analyze_question question) = "beginner" <->
   ~ (occurs "advanced" (PyStr.lower question) \/
      occurs "complex" (PyStr.lower question) \/
      occurs "architecture" (PyStr.lower question)) /\
   ~ (occurs "deploy" (PyStr.lower question) \/
      occurs "optimize" (PyStr.lower question) \/
      occurs "secure" (PyStr.lower question))).
Proof.
  unfold analyze_question. cbn [difficulty]. unfold estimate_difficulty.
  rewrite <- !any_in_three.
  destruct (PyStr.any_in ["advanced"; "complex"; "architecture"] _);
    destruct (PyStr.any_in ["deploy"; "optimize"; "secure"] _);
    repeat split; try reflexivity; try discriminate;
    try (intros [? ?]; congruence); try (intros H; congruence).
Qed.

(** ** What the patterns match *)

Lemma append_nil_l (s : string) : "" +:+ s = s.
Proof. reflexivity. Qed.

Lemma append_nil_r (s : string) : s +:+ "" = s.
Proof.
  induction s as [|c s IH]; [reflexivity|].
  rewrite append_cons, IH. reflexivity.
Qed.

Lemma append_assoc (a b c : string) : (a +:+ b) +:+ c = a +:+ b +:+ c.
Proof.
  induction a as [|x a IH]; [reflexivity|].
  rewrite !append_cons, IH. reflexivity.
Qed.

Lemma last_char_app (prev : option ascii) (a b : string) :
  last_char prev (a +:+ b) = last_char (last_char prev a) b.
Proof.
  revert prev. induction a as [|x a IH]; intros prev; [reflexivity|].
  rewrite append_cons. cbn [last_char]. apply IH.
Qed.

(** A run of literal characters matches when the subject goes on with
    that run; the match ends right after it. *)
Lemma match_at_lit (w : string) (prev : option ascii) (s : string)
    (k : option ascii -> string -> bool) :
  match_at (lit w) prev s k = true <->
  exists rest, s = w +:+ rest /\ k (last_char prev w) rest = true.
Proof.
  revert prev s. induction w as [|c w IH]; intros prev s.
  - cbn. split.
    + intros H. exists s. split; [reflexivity | exact H].
    + intros (rest & -> & H). exact H.
  - assert (Hchr : match_at (Chr c) prev s
                     (fun p' s' => match_at (lit w) p' s' k) = true <->
                   exists rest, s = String c w +:+ rest /\
                                k (last_char prev (String c w)) rest = true).
    { cbn [match_at last_char]. destruct s as [|d s].
      - split; [discriminate | intros (rest & Hs & _); discriminate].
      - rewrite andb_true_iff, Ascii.eqb_eq, IH. split.
        + intros (-> & rest & -> & Hk). exists rest. split; [reflexivity | exact Hk].
        + intros (rest & Hs & Hk). rewrite append_cons in Hs.
          injection Hs as -> ->. split; [reflexivity|].
          exists rest. split; [reflexivity | exact Hk]. }
    destruct w as [|c' w]; [|exact Hchr].
    rewrite <- Hchr. cbn. destruct s as [|d s]; reflexivity.
Qed.

(** [re.search] tries every position of the subject. *)
Lemma search_from_spec (r : regex) (prev : option ascii) (s : string) :
  search_from r prev s = true <->
  exists a b,
    s = a +:+ b /\ match_at r (last_char prev a) b (fun _ _ => true) = true.
Proof.
  revert prev. induction s as [|c s IH]; intros prev; cbn [search_from].
  - rewrite orb_false_r. split.
    + intros H. exists "", "". split; [reflexivity | exact H].
    + intros (a & b & Hs & H). destruct a as [|x a]; [|discriminate].
      rewrite append_nil_l in Hs. subst b. exact H.
  - rewrite orb_true_iff, IH. split.
    + intros [H | (a & b & -> & H)].
      * exists "", (String c s). split; [reflexivity | exact H].
      * exists (String c a), b. split; [reflexivity | exact H].
    + intros (a & b & Hs & H). destruct a as [|x a].
      * rewrite append_nil_l in Hs. subst b. left. exact H.
      * rewrite append_cons in Hs. injection Hs as -> ->.
        right. exists a, b. split; [reflexivity | exact H].
Qed.

Lemma search_spec (r : regex) (s : string) :
  Re.search r s = true <->
  exists a b,
    s = a +:+ b /\ match_at r (last_char None a) b (fun _ _ => true) = true.
Proof. apply search_from_spec. Qed.

Lemma at_boundary_before_word (prev : option ascii) (s : string) :
  word_after s = true -> at_boundary prev s = negb (word_before prev).
Proof.
  intros H. unfold at_boundary. rewrite H. destruct (word_before prev); reflexivity.
Qed.

Lemma at_boundary_after_word (prev : option ascii) (s : string) :
  word_before prev = true -> at_boundary prev s = negb (word_after s).
Proof.
  intros H. unfold at_boundary. rewrite H. reflexivity.
Qed.

Lemma word_after_app (w rest : string) :
  word_after w = true -> word_after (w +:+ rest) = true.
Proof. destruct w as [|c w]; [discriminate | intros H; exact H]. Qed.

Lemma last_char_word (prev : option ascii) (w : string) :
  word_before (last_char None w) = true ->
  word_before (last_char prev w) = true.
Proof.
  destruct w as [|c w]; [discriminate|]. cbn [last_char]. intros H; exact H.
Qed.

(** [\b w \b] at a position, for a [w] that begins and ends with a word
    character. *)
Lemma match_at_whole_word (w : string) (prev : option ascii) (s : string)
    (k : option ascii -> string -> bool) :
  word_after w = true -> word_before (last_char None w) = true ->
  (match_at (whole_word (lit w)) prev s k = true <->
   exists rest,
     s = w +:+ rest /\ word_before prev = false /\ word_after rest = false /\
     k (last_char prev w) rest = true).
Proof.
  intros Hfirst Hlast. unfold whole_word. cbn [match_at].
  rewrite andb_true_iff, match_at_lit. split.
  - intros (Hb & rest & -> & Hk). rewrite andb_true_iff in Hk.
    destruct Hk as (Hb' & Hk).
    rewrite at_boundary_before_word in Hb by (apply word_after_app; exact Hfirst).
    rewrite at_boundary_after_word in Hb' by (apply last_char_word; exact Hlast).
    exists rest. repeat split; try assumption.
    + destruct (word_before prev); [discriminate | reflexivity].
    + destruct (word_after rest); [discriminate | reflexivity].
  - intros (rest & -> & Hp & Hr & Hk). split.
    + rewrite at_boundary_before_word by (apply word_after_app; exact Hfirst).
      rewrite Hp. reflexivity.
    + exists rest. split; [reflexivity|].
      rewrite at_boundary_after_word by (apply last_char_word; exact Hlast).
      rewrite Hr, Hk. reflexivity.
Qed.

(** A rule [\bw\b], for a word [w] that begins and ends with a word
    character, is found in a text exactly when [w] occurs there with no
    word character (letter, digit, underscore) touching it on either
    side. *)
Lemma search_whole_word (w s : string) :
  word_after w = true -> word_before (last_char None w) = true ->
  (Re.search (whole_word (lit w)) s = true <-> delimited w s).
Proof.
  intros Hfirst Hlast. rewrite search_spec. unfold delimited. split.
  - intros (a & b & -> & Hm).
    apply (match_at_whole_word w _ _ _ Hfirst Hlast) in Hm.
    destruct Hm as (rest & -> & Hp & Hr & _).
    exists a, rest. repeat split; assumption.
  - intros (a & b & -> & Hp & Hr). exists a, (w +:+ b). split; [reflexivity|].
    apply (match_at_whole_word w _ _ _ Hfirst Hlast).
    exists b. repeat split; assumption.
Qed.

(** A stem [u] with an optional ending [v] between two [\b] is found
    exactly when [u] followed by [v], or [u] alone, occurs as a word of
    its own. *)
Lemma search_optional_ending (u v s : string) :
  word_after u = true -> word_before (last_char None u) = true ->
  word_before (last_char None v) = true ->
  (Re.search (Cat WordB (Cat (lit u) (Cat (Opt (lit v)) WordB))) s = true <->
   delimited (u +:+ v) s \/ delimited u s).
Proof.
  intros Hfirst Hlast Hvlast. rewrite search_spec. unfold delimited. split.
  - intros (a & b & -> & Hm). cbn [match_at] in Hm.
    rewrite andb_true_iff, match_at_lit in Hm.
    destruct Hm as (Hb & rest & -> & Hopt).
    rewrite at_boundary_before_word in Hb by (apply word_after_app; exact Hfirst).
    assert (Hp : word_before (last_char None a) = false)
      by (destruct (word_before (last_char None a)); [discriminate | reflexivity]).
    rewrite orb_true_iff, match_at_lit in Hopt.
    destruct Hopt as [(rest' & -> & Hk) | Hk]; rewrite andb_true_r in Hk.
    + left. rewrite at_boundary_after_word in Hk by (apply last_char_word; exact Hvlast).
      exists a, rest'. rewrite append_assoc. repeat split; [exact Hp|].
      destruct (word_after rest'); [discriminate | reflexivity].
    + right. rewrite at_boundary_after_word in Hk by (apply last_char_word; exact Hlast).
      exists a, rest. repeat split; [exact Hp|].
      destruct (word_after rest); [discriminate | reflexivity].
  - intros [(a & b & -> & Hp & Hr) | (a & b & -> & Hp & Hr)].
    + exists a, ((u +:+ v) +:+ b). split; [reflexivity|].
      cbn [match_at]. rewrite andb_true_iff, match_at_lit. split.
      * rewrite at_boundary_before_word
          by (apply word_after_app, word_after_app; exact Hfirst).
        rewrite Hp. reflexivity.
      * exists (v +:+ b). split; [apply append_assoc|].
        rewrite orb_true_iff, match_at_lit. left.
        exists b. split; [reflexivity|]. rewrite andb_true_r.
        rewrite at_boundary_after_word by (apply last_char_word; exact Hvlast).
        rewrite Hr. reflexivity.
    + exists a, (u +:+ b). split; [reflexivity|].
      cbn [match_at]. rewrite andb_true_iff, match_at_lit. split.
      * rewrite at_boundary_before_word by (apply word_after_app; exact Hfirst).
        rewrite Hp. reflexivity.
      * exists b. split; [reflexivity|].
        rewrite orb_true_iff. right. rewrite andb_true_r.
        rewrite at_boundary_after_word by (apply last_char_word; exact Hlast).
        rewrite Hr. reflexivity.
Qed.

Lemma search_alt (r1 r2 : regex) (s : string) :
  Re.search (Alt r1 r2) s = true <->
  Re.search r1 s = true \/ Re.search r2 s = true.
Proof.
  rewrite !search_spec. cbn [match_at]. split.
  - intros (a & b & Hs & Hm). rewrite orb_true_iff in Hm.
    destruct Hm as [Hm | Hm]; [left | right]; exists a, b; split; assumption.
  - intros [(a & b & Hs & Hm) | (a & b & Hs & Hm)];
      exists a, b; (split; [exact Hs|]); rewrite Hm;
      [reflexivity | apply orb_true_r].
Qed.

Lemma search_lit (w s : string) : Re.search (lit w) s = true <-> occurs w s.
Proof.
  rewrite search_spec. unfold occurs. split.
  - intros (a & b & -> & Hm). apply match_at_lit in Hm.
    destruct Hm as (rest & -> & _). exists a, rest. reflexivity.
  - intros (a & b & ->). exists a, (w +:+ b). split; [reflexivity|].
    apply match_at_lit. exists b. split; reflexivity.
Qed.

Lemma concept_patterns_rules (s : string) :
  Forall (fun rule => Re.search (fst rule) s = true <->
                      rule_meaning (snd rule) s)
         concept_patterns.
Proof.
  unfold concept_patterns.
  repeat (apply List.Forall_cons;
          [cbn [fst snd]; unfold rule_meaning;
           cbn [String.eqb Ascii.eqb Bool.eqb] |]);
    [ | | | | | | | | apply List.Forall_nil].
  - rewrite search_alt, search_lit, search_whole_word by reflexivity.
    reflexivity.
  - apply search_whole_word; reflexivity.
  - apply search_whole_word; reflexivity.
  - apply search_whole_word; reflexivity.
  - apply search_whole_word; reflexivity.
  - apply search_whole_word; reflexivity.
  - apply (search_optional_ending "test" "ing"); reflexivity.
  - apply (search_optional_ending "debug" "ging"); reflexivity.
Qed.

(** X3: what each rule of [concept_patterns] looks for in the lowercased
    question.  The rules for django, flask, api, deployment and docker:
    the word on its own, no letter, digit or underscore touching it.  The
    rules for testing and debugging: test or testing, debug or debugging,
    on their own (tests, tested, debugger do not count).  The first rule:
    venv on its own, or the text virtual environment anywhere. *)
Theorem concept_patterns_meaning (pattern : regex) (tag s : string) :
  In (pattern, tag) concept_patterns ->
  (Re.search pattern s = true <-> rule_meaning tag s).
Proof.
  intros Hin. pose proof (concept_patterns_rules s) as Hall.
  rewrite List.Forall_forall in Hall. exact (Hall (pattern, tag) Hin).
Qed.

(** The docker rule on a question about docker-compose. *)
Lemma concept_patterns_meaning_witness :
  Re.search (whole_word (lit "docker")) "is docker-compose needed?" = true <->
  delimited "docker" "is docker-compose needed?".
Proof.
  apply (concept_patterns_meaning _ "docker").
  do 5 right. left. reflexivity.
Defined.

(** X4: a question is ['general'] exactly when its lowercased text holds
    none of the things the eight rules look for. *)
Theorem general_iff_no_rule_applies (question : string) :
  category (analyze_question question) = "general" <->
  forall tag, In tag (map snd concept_patterns) ->
              ~ rule_meaning tag (PyStr.lower question).
Proof.
  pose proof (concept_patterns_rules (PyStr.lower question)) as Hall.
  rewrite List.Forall_forall in Hall.
  unfold analyze_question. cbn [category].
  destruct (category_loop_spec concept_patterns (PyStr.lower question) "general")
    as [(pre & pattern & cat & post & Hsplit & _ & Hm & Hcat) | [Hnone Hcat]].
  - assert (Hin : In (pattern, cat) concept_patterns)
      by (rewrite Hsplit; apply in_or_app; right; left; reflexivity).
    rewrite Hcat. split.
    + intros ->. exfalso. revert Hin. unfold concept_patterns. cbn [In].
      intros H. repeat (destruct H as [H | H]; [discriminate H|]). exact H.
    + intros Hno. exfalso. apply (Hno cat).
      * apply (in_map snd) in Hin. exact Hin.
      * apply (Hall (pattern, cat) Hin). exact Hm.
  - rewrite Hcat. split; [|reflexivity]. intros _ tag Hin Hmean.
    apply in_map_iff in Hin. destruct Hin as ([pattern tag'] & Htag & Hin).
    cbn [snd] in Htag. subst tag'.
    apply (Hall (pattern, tag) Hin) in Hmean. cbn [fst] in Hmean.
    rewrite (Hnone pattern tag Hin) in Hmean. discriminate.
Qed.

(** ** The lookup pattern *)

(** Every text satisfies the pattern built from itself, the part after a
    NUL character being invisible to LIKE on both sides. *)
Lemma like_match_c_str_self (q : string) :
  Sql.like_match (Sql.c_str (q +:+ "%")) (Sql.c_str q) = true.
Proof.
  induction q as [|c q IH]; [reflexivity|].
  rewrite append_cons. cbn [Sql.c_str].
  destruct (PyStr.code c =? 0)%N; [reflexivity|].
  rewrite like_match_cons.
  destruct (Ascii.eqb c "%") eqn:Hpct.
  - apply Ascii.eqb_eq in Hpct. subst c.
    rewrite (like_match_percent_here _ _ IH). apply orb_true_r.
  - destruct (Ascii.eqb c "_"); [exact IH|].
    unfold Sql.eq_nocase. rewrite Ascii.eqb_refl, IH. reflexivity.
Qed.

Lemma like_self (q : string) : Sql.like_value q ("%" +:+ q +:+ "%") = true.
Proof.
  unfold Sql.like_value.
  change ("%" +:+ q +:+ "%") with (String "%" (q +:+ "%")).
  change (Sql.c_str (String "%" (q +:+ "%")))
    with (String "%" (Sql.c_str (q +:+ "%"))).
  apply like_match_percent_here, like_match_c_str_self.
Qed.

Lemma like_empty_question (text : string) :
  Sql.like_value text ("%" +:+ "" +:+ "%") = true.
Proof.
  unfold Sql.like_value. change (Sql.c_str ("%" +:+ "" +:+ "%")) with "%%".
  apply like_match_percent_here, like_match_percent_any.
Qed.

Lemma hits_iff (question : string) (row : QAPair.t) :
  hits question row = true <->
  QAPair.category row = category (analyze_question question) /\
  QAPair.difficulty row = difficulty (analyze_question question) /\
  Sql.like_value (QAPair.question row) ("%" +:+ question +:+ "%") = true.
Proof.
  unfold hits, tags_match.
  rewrite !andb_true_iff, !String.eqb_eq. tauto.
Qed.

Lemma tags_match_iff (question : string) (row : QAPair.t) :
  tags_match question row = true <->
  QAPair.category row = category (analyze_question question) /\
  QAPair.difficulty row = difficulty (analyze_question question).
Proof.
  unfold tags_match. rewrite andb_true_iff, !String.eqb_eq. tauto.
Qed.

(** ** More on the classifier's range *)

Lemma analyze_question_category_from_rules (question : string) :
  In (category (analyze_question question))
     ("general" :: map snd concept_patterns).
Proof.
  unfold analyze_question. cbn [category].
  destruct (category_loop_range concept_patterns (PyStr.lower question) "general")
    as [-> | Hin]; [left; reflexivity | right; exact Hin].
Qed.

(** X5: a row tagged ['project_setup'], as the first seeded row is, never
    satisfies the lookup of any question: the classifier has no rule with
    that tag. *)
Theorem project_setup_rows_never_served (question : string) (row : QAPair.t) :
  QAPair.category row = "project_setup" -> qa_match question row = Ok false.
Proof.
  intros Hcat.
  assert (Htags : tags_match question row = false).
  { destruct (tags_match question row) eqn:Hm; [|reflexivity].
    apply tags_match_iff in Hm. destruct Hm as (Hc & _).
    pose proof (analyze_question_category_from_rules question) as Hin.
    rewrite <- Hc, Hcat in Hin. exfalso.
    unfold concept_patterns in Hin. cbn [map snd In] in Hin.
    repeat (destruct Hin as [Hin | Hin]; [discriminate Hin|]). exact Hin. }
  unfold qa_match, qa_where. unfold tags_match in Htags.
  rewrite Htags. reflexivity.
Qed.

(** The first seeded row against its own question. *)
Lemma project_setup_rows_never_served_witness :
  qa_match "How do I start a new Python project?"
    (QAPair.mk "How do I start a new Python project?" "Five steps."
               "project_setup" "beginner" 0) = Ok false.
Proof.
  apply project_setup_rows_never_served. reflexivity.
Defined.

(** ** Letter case in the lookup *)

Ltac each_character c :=
  let b0 := fresh in let b1 := fresh in let b2 := fresh in let b3 := fresh in
  let b4 := fresh in let b5 := fresh in let b6 := fresh in let b7 := fresh in
  destruct c as [b0 b1 b2 b3 b4 b5 b6 b7];
  destruct b0, b1, b2, b3, b4, b5, b6, b7.

Lemma tolower_observations (c : ascii) :
  PyStr.lower_char (Sql.tolower c) = PyStr.lower_char c /\
  Ascii.eqb (Sql.tolower c) "%" = Ascii.eqb c "%" /\
  Ascii.eqb (Sql.tolower c) "_" = Ascii.eqb c "_" /\
  (PyStr.code (Sql.tolower c) =? 0)%N = (PyStr.code c =? 0)%N /\
  (PyStr.code (Sql.tolower c) <? 128)%N = (PyStr.code c <? 128)%N /\
  ((PyStr.code c <? 128)%N = false -> Sql.tolower c = c).
Proof.
  each_character c; repeat split; intros H; try reflexivity; discriminate H.
Qed.

(** LIKE's comparison of two characters is the comparison of their
    folded forms. *)
Lemma eq_nocase_tolower (c x : ascii) :
  Sql.eq_nocase c x = Ascii.eqb (Sql.tolower c) (Sql.tolower x).
Proof.
  unfold Sql.eq_nocase.
  destruct (Ascii.eqb c x) eqn:Hcx.
  - apply Ascii.eqb_eq in Hcx. subst x. rewrite Ascii.eqb_refl. reflexivity.
  - rewrite orb_false_l.
    destruct (Ascii.eqb (Sql.tolower c) (Sql.tolower x)) eqn:Hfold;
      [|apply andb_false_r].
    rewrite andb_true_r. apply Ascii.eqb_eq in Hfold.
    destruct (tolower_observations c) as (_ & _ & _ & _ & Hc & Hc').
    destruct (tolower_observations x) as (_ & _ & _ & _ & Hx & Hx').
    assert (Hsame : (PyStr.code c <? 128)%N = (PyStr.code x <? 128)%N)
      by (rewrite <- Hc, <- Hx, Hfold; reflexivity).
    rewrite <- Hsame.
    destruct (PyStr.code c <? 128)%N; [reflexivity|].
    exfalso. rewrite (Hc' eq_refl), (Hx' (eq_sym Hsame)) in Hfold. subst x.
    rewrite Ascii.eqb_refl in Hcx. discriminate.
Qed.

Lemma like_match_nil (c : ascii) (pat : string) :
  Sql.like_match (String c pat) "" =
  if Ascii.eqb c "%" then Sql.like_match pat "" else false.
Proof.
  cbn [Sql.like_match].
  destruct (Ascii.eqb c "%"); [apply orb_false_r|].
  destruct (Ascii.eqb c "_"); reflexivity.
Qed.

(** LIKE does not tell apart two patterns with the same folded form. *)
Lemma like_match_fold_pattern (p p' : string) :
  fold_ascii p = fold_ascii p' ->
  forall t, Sql.like_match p t = Sql.like_match p' t.
Proof.
  revert p'. induction p as [|c p IH]; intros p' Hfold.
  - destruct p'; [reflexivity | discriminate].
  - destruct p' as [|c' p']; [discriminate|].
    cbn [fold_ascii] in Hfold. injection Hfold as Hc Hp.
    pose proof (tolower_observations c) as (_ & Hpct & Hund & _).
    pose proof (tolower_observations c') as (_ & Hpct' & Hund' & _).
    rewrite Hc, Hpct' in Hpct. rewrite Hc, Hund' in Hund.
    induction t as [|d t IHt].
    + rewrite !like_match_nil, Hpct, (IH p' Hp). reflexivity.
    + rewrite !like_match_cons, Hpct, Hund, !eq_nocase_tolower, Hc.
      rewrite !(IH p' Hp), IHt. reflexivity.
Qed.

Lemma fold_ascii_app (a b : string) :
  fold_ascii (a +:+ b) = fold_ascii a +:+ fold_ascii b.
Proof.
  induction a as [|c a IH]; [reflexivity|].
  rewrite append_cons. cbn [fold_ascii]. rewrite IH. reflexivity.
Qed.

Lemma fold_ascii_c_str (s : string) :
  fold_ascii (Sql.c_str s) = Sql.c_str (fold_ascii s).
Proof.
  induction s as [|c s IH]; [reflexivity|].
  cbn [fold_ascii Sql.c_str].
  destruct (tolower_observations c) as (_ & _ & _ & -> & _).
  destruct (PyStr.code c =? 0)%N; [reflexivity|].
  cbn [fold_ascii]. rewrite IH. reflexivity.
Qed.

Lemma lower_fold_ascii (s : string) : PyStr.lower (fold_ascii s) = PyStr.lower s.
Proof.
  induction s as [|c s IH]; [reflexivity|].
  cbn [fold_ascii PyStr.lower].
  destruct (tolower_observations c) as (-> & _). rewrite IH. reflexivity.
Qed.

Lemma analyze_question_fold_ascii (q q' : string) :
  fold_ascii q = fold_ascii q' -> analyze_question q = analyze_question q'.
Proof.
  intros Hfold. unfold analyze_question.
  rewrite <- (lower_fold_ascii q), <- (lower_fold_ascii q'), Hfold. reflexivity.
Qed.

Lemma utf8_length_fold_ascii (s : string) :
  Sql.utf8_length (fold_ascii s) = Sql.utf8_length s.
Proof.
  induction s as [|c s IH]; [reflexivity|].
  cbn [fold_ascii Sql.utf8_length].
  destruct (tolower_observations c) as (_ & _ & _ & _ & -> & _).
  rewrite IH. reflexivity.
Qed.

(** LIKE does not tell apart two patterns with the same folded form:
    the same refusal, the same value. *)
Lemma like_fold_pattern (text p p' : string) :
  fold_ascii p = fold_ascii p' -> Sql.like text p = Sql.like text p'.
Proof.
  intros Hfold. unfold Sql.like.
  rewrite <- (utf8_length_fold_ascii p), <- (utf8_length_fold_ascii p'), Hfold.
  destruct (_ <? _)%N; [reflexivity|]. f_equal.
  unfold Sql.like_value. apply like_match_fold_pattern.
  rewrite !fold_ascii_c_str, Hfold. reflexivity.
Qed.

(** Two questions with the same folded form ask the store the same
    thing. *)
Lemma qa_match_fold_ascii (q q' : string) (row : QAPair.t) :
  fold_ascii q = fold_ascii q' -> qa_match q row = qa_match q' row.
Proof.
  intros Hfold. unfold qa_match, qa_where.
  rewrite (analyze_question_fold_ascii q q' Hfold).
  destruct (_ && _); [|reflexivity].
  apply like_fold_pattern. rewrite !fold_ascii_app, Hfold. reflexivity.
Qed.

Lemma within_limit_fold_ascii (q q' : string) :
  fold_ascii q = fold_ascii q' -> within_limit q = within_limit q'.
Proof.
  intros Hfold. unfold within_limit.
  rewrite <- (utf8_length_fold_ascii ("%" +:+ q +:+ "%")),
          <- (utf8_length_fold_ascii ("%" +:+ q' +:+ "%")).
  rewrite !fold_ascii_app, Hfold. reflexivity.
Qed.

Lemma fetch_first_ext {A : Type} (c c' : A -> outcome bool) (rows : list A) :
  (forall x, c x = c' x) -> fetch_first c rows = fetch_first c' rows.
Proof.
  intros Hcc. induction rows as [|a rows IH]; [reflexivity|].
  cbn [fetch_first]. rewrite Hcc, IH. reflexivity.
Qed.

Section StoreProperties.

Variable env : Env.

(** ** Asking again *)

(** Within the limit of LIKE the call returns. *)
Lemma generate_response_returns (question : string) (w : World) :
  within_limit question = true ->
  exists r, fst (generate_response env question w) = Ok r.
Proof.
  intros Hle.
  pose proof (fetch_first_within question (qa_pairs w) Hle) as Hscan.
  destruct (find (hits question) (qa_pairs w)) as [row|].
  - rewrite (generate_response_hit env question w row Hscan).
    eexists. reflexivity.
  - rewrite (generate_response_miss env question w Hscan).
    eexists. reflexivity.
Qed.

(** After a call within the limit the store holds an answer to the
    question asked, and the first row the lookup finds carries the answer
    just given. *)
Lemma asked_question_is_cached (question : string) (w : World) :
  within_limit question = true ->
  exists row r,
    fetch_first (qa_match question)
                (qa_pairs (snd (generate_response env question w)))
      = Ok (Some row) /\
    fst (generate_response env question w) = Ok r /\
    QAPair.answer row = Response.answer r.
Proof.
  intros Hle.
  pose proof (fetch_first_within question (qa_pairs w) Hle) as Hscan.
  destruct (find (hits question) (qa_pairs w)) as [row|].
  - rewrite (generate_response_hit env question w row Hscan).
    exists row. eexists. repeat split. exact Hscan.
  - rewrite (generate_response_miss env question w Hscan).
    cbn [fst snd qa_pairs].
    eexists. eexists. split.
    + apply fetch_first_app_first.
      * apply fetch_first_none. exact Hscan.
      * rewrite (qa_match_within _ _ Hle). f_equal.
        apply hits_iff.
        cbn [QAPair.category QAPair.difficulty QAPair.question].
        repeat split. apply like_self.
    + split; reflexivity.
Qed.

(** What a call answers depends on two tables only, when the lookup hits. *)
Lemma generate_response_hit_any (question : string) (w w' : World) (row : QAPair.t) :
  fetch_first (qa_match question) (qa_pairs w) = Ok (Some row) ->
  qa_pairs w' = qa_pairs w -> code_examples w' = code_examples w ->
  generate_response env question w' =
  (Ok (Response.mk (QAPair.answer row)
         (code_example_for (category (analyze_question question)) w)
         (category (analyze_question question))
         (difficulty (analyze_question question))
         (generate_follow_up_questions (category (analyze_question question)))),
   w').
Proof.
  intros Hscan Hqa Hce. rewrite <- Hqa in Hscan.
  rewrite (generate_response_hit env question w' row Hscan).
  unfold code_example_for. rewrite Hce. reflexivity.
Qed.

(** All of a response but its answer is decided by the question and the
    table of code examples. *)
Lemma generate_response_fields (question : string) (w : World) (r : Response.t) :
  fst (generate_response env question w) = Ok r ->
  r = Response.mk (Response.answer r)
        (code_example_for (category (analyze_question question)) w)
        (category (analyze_question question))
        (difficulty (analyze_question question))
        (generate_follow_up_questions (category (analyze_question question))).
Proof.
  destruct (fetch_first (qa_match question) (qa_pairs w)) as [[row|]|e] eqn:Hscan.
  - rewrite (generate_response_hit env question w row Hscan).
    intros [= <-]. reflexivity.
  - rewrite (generate_response_miss env question w Hscan).
    intros [= <-]. reflexivity.
  - rewrite (generate_response_raise env question w e Hscan). discriminate.
Qed.

Lemma generate_response_code_examples (question : string) (w : World) :
  code_examples (snd (generate_response env question w)) = code_examples w.
Proof.
  destruct (fetch_first (qa_match question) (qa_pairs w)) as [[row|]|e] eqn:Hscan.
  - rewrite (generate_response_hit env question w row Hscan). reflexivity.
  - rewrite (generate_response_miss env question w Hscan). reflexivity.
  - rewrite (generate_response_raise env question w e Hscan). reflexivity.
Qed.

(** X6: asking the same question a second time, for a question within
    the limit of LIKE (at most 49998 bytes), gives the same response as
    the first time and leaves the world as the first call left it: no
    second call of the model, no second row. *)
Theorem second_ask_is_served_from_cache (question : string) (w : World) :
  within_limit question = true ->
  generate_response env question (snd (generate_response env question w)) =
  (fst (generate_response env question w),
   snd (generate_response env question w)).
Proof.
  intros Hle.
  destruct (asked_question_is_cached question w Hle)
    as (row & r & Hscan & Hr & Hanswer).
  rewrite (generate_response_hit env question _ row Hscan).
  apply pair_equal_spec. split; [|reflexivity].
  rewrite Hr. f_equal.
  rewrite (generate_response_fields question w r Hr), Hanswer.
  unfold code_example_for.
  rewrite generate_response_code_examples. reflexivity.
Qed.

(** X7: the same holds when the question comes back in another ASCII
    letter case: the classifier lowercases and LIKE folds ASCII case, so
    the second form finds the row the first one left or used, and gets
    the same response without the model. *)
Theorem same_question_in_other_case_is_served_from_cache
    (question question' : string) (w : World) :
  within_limit question = true ->
  fold_ascii question' = fold_ascii question ->
  generate_response env question' (snd (generate_response env question w)) =
  (fst (generate_response env question w),
   snd (generate_response env question w)).
Proof.
  intros Hle Hfold.
  destruct (asked_question_is_cached question w Hle)
    as (row & r & Hscan & Hr & Hanswer).
  rewrite (fetch_first_ext (qa_match question) (qa_match question')) in Hscan
    by (intros x; symmetry; apply qa_match_fold_ascii; exact Hfold).
  rewrite (generate_response_hit env question' _ row Hscan).
  rewrite (analyze_question_fold_ascii question' question Hfold).
  apply pair_equal_spec. split; [|reflexivity].
  rewrite Hr. f_equal.
  rewrite (generate_response_fields question w r Hr), Hanswer.
  unfold code_example_for.
  rewrite generate_response_code_examples. reflexivity.
Qed.

(** X8: recording an interaction, helpful or not, has no influence on
    what is answered afterwards: the outcome of asking any question is
    the one it would have been without the recording. *)
Theorem feedback_never_changes_answers
    (asked response question : string) (helpful : bool) (w : World) :
  fst (generate_response env question
         (snd (record_interaction env asked response helpful w)))
  = fst (generate_response env question w).
Proof.
  set (w' := snd (record_interaction env asked response helpful w)).
  assert (Hqa : qa_pairs w' = qa_pairs w) by reflexivity.
  assert (Hce : code_examples w' = code_examples w) by reflexivity.
  assert (Hgc : generate_calls w' = generate_calls w) by reflexivity.
  destruct (fetch_first (qa_match question) (qa_pairs w)) as [[row|]|e] eqn:Hscan.
  - rewrite (generate_response_hit_any question w w' row Hscan Hqa Hce).
    rewrite (generate_response_hit env question w row Hscan). reflexivity.
  - rewrite (generate_response_miss env question w Hscan).
    rewrite <- Hqa in Hscan.
    rewrite (generate_response_miss env question w' Hscan).
    cbn [fst]. unfold generated, code_example_for. rewrite Hgc, Hce. reflexivity.
  - rewrite (generate_response_raise env question w e Hscan).
    rewrite <- Hqa in Hscan.
    rewrite (generate_response_raise env question w' e Hscan). reflexivity.
Qed.

(** ** Beyond the limit of LIKE *)



(** ** Hits *)

(** A row on which the condition of the lookup holds gives a hit: nothing
    is generated or written, and the answer is that of a stored row on
    which it holds. *)
Lemma matching_row_gives_hit (question : string) (w : World) (row : QAPair.t) :
  In row (qa_pairs w) -> qa_match question row = Ok true ->
  snd (generate_response env question w) = w /\
  exists first,
    In first (qa_pairs w) /\ qa_match question first = Ok true /\
    answers_with (fst (generate_response env question w))
                 (QAPair.answer first).
Proof.
  intros Hin Hm.
  destruct (qa_match_true_hits question row Hm) as [Hle Hhit].
  destruct (find_some_exists _ _ _ Hin Hhit) as [first Hfind].
  assert (Hscan : fetch_first (qa_match question) (qa_pairs w) = Ok (Some first))
    by (rewrite (fetch_first_within question _ Hle), Hfind; reflexivity).
  rewrite (generate_response_hit env question w first Hscan).
  split; [reflexivity|]. exists first.
  destruct (find_some _ _ Hfind) as [Hin' Hhit'].
  repeat split.
  - exact Hin'.
  - rewrite (qa_match_within _ _ Hle), Hhit'. reflexivity.
  - eexists. split; reflexivity.
Qed.

(** X9: reuse works for every category and goes by containment of the
    input in the stored question: when the question is within the limit
    of LIKE (at most 49998 bytes), a stored row is tagged as the question
    is classified and its question (free of NUL characters) contains the
    question asked, the model is not called, nothing is written, and the
    answer comes from a stored row on which the lookup holds. *)
Theorem contained_question_is_served_from_store
    (question a b : string) (w : World) (row : QAPair.t) :
  within_limit question = true ->
  In row (qa_pairs w) ->
  QAPair.question row = a +:+ question +:+ b ->
  Sql.nul_free (QAPair.question row) = true ->
  QAPair.category row = category (analyze_question question) ->
  QAPair.difficulty row = difficulty (analyze_question question) ->
  snd (generate_response env question w) = w /\
  exists first,
    In first (qa_pairs w) /\ qa_match question first = Ok true /\
    answers_with (fst (generate_response env question w))
                 (QAPair.answer first).
Proof.
  intros Hle Hin Hq Hnf Hcat Hdiff.
  apply (matching_row_gives_hit question w row Hin).
  rewrite (qa_match_within _ _ Hle). f_equal.
  apply hits_iff. repeat split; try assumption.
  rewrite Hq in Hnf |- *. apply like_infix. exact Hnf.
Qed.

(** X10: the empty question is classified general/beginner and its
    pattern is [%%], which every stored question satisfies: when the
    store has a general/beginner row, whatever its question, the empty
    question is answered from the store, without the model. *)
Theorem empty_question_takes_any_general_beginner_row
    (w : World) (row : QAPair.t) :
  In row (qa_pairs w) ->
  QAPair.category row = "general" -> QAPair.difficulty row = "beginner" ->
  snd (generate_response env "" w) = w /\
  exists first,
    In first (qa_pairs w) /\
    QAPair.category first = "general" /\ QAPair.difficulty first = "beginner" /\
    answers_with (fst (generate_response env "" w)) (QAPair.answer first).
Proof.
  intros Hin Hcat Hdiff.
  assert (Hm : qa_match "" row = Ok true).
  { rewrite (qa_match_within "" row eq_refl). f_equal.
    apply hits_iff. repeat split; try assumption. apply like_empty_question. }
  destruct (matching_row_gives_hit "" w row Hin Hm)
    as (Hw & first & Hin' & Hm' & Hanswer).
  split; [exact Hw|]. exists first.
  apply qa_match_true in Hm'. destruct Hm' as (Hc & Hd & _).
  repeat split; assumption.
Qed.

(** ** Seeding *)

Lemma initialize_basic_qa_nonempty (w : World) :
  Nat.eqb (length (qa_pairs (snd (initialize_basic_qa env w)))) 0 = false.
Proof.
  destruct (initialize_basic_qa_rows env w) as (ts1 & ts2 & ->).
  rewrite length_app. cbn [basic_qa combine map length].
  apply Nat.eqb_neq. lia.
Qed.

Lemma setup_knowledge_base_nonempty (w : World) :
  Nat.eqb (length (qa_pairs (snd (setup_knowledge_base env w)))) 0 = false.
Proof.
  unfold setup_knowledge_base.
  destruct (Nat.eqb (length (qa_pairs w)) 0) eqn:Hlen.
  - apply initialize_basic_qa_nonempty.
  - exact Hlen.
Qed.

Lemma setup_knowledge_base_skips (w : World) :
  Nat.eqb (length (qa_pairs w)) 0 = false ->
  setup_knowledge_base env w = (Ok tt, w).
Proof.
  intros Hlen. unfold setup_knowledge_base. rewrite Hlen. reflexivity.
Qed.

(** X11: the seeding happens once.  After [setup_knowledge_base] the table
    [qa_pairs] is not empty, and setting up again (a restart on the same
    file) changes nothing: the seed rows are not duplicated. *)
Theorem setup_knowledge_base_seeds_once (w : World) :
  qa_pairs (snd (setup_knowledge_base env w)) <> [] /\
  setup_knowledge_base env (snd (setup_knowledge_base env w))
    = (Ok tt, snd (setup_knowledge_base env w)).
Proof.
  pose proof (setup_knowledge_base_nonempty w) as Hlen. split.
  - intros Hnil. rewrite Hnil in Hlen. discriminate.
  - apply setup_knowledge_base_skips. exact Hlen.
Qed.

(** ** Sequences of calls *)

(** What one call does to the world, table by table. *)
Lemma run_effect (op : operation) (w : World) :
  exists added_qa added_ui added_calls,
    qa_pairs (run env op w) = qa_pairs w ++ added_qa /\
    Forall well_tagged added_qa /\
    user_interactions (run env op w) = user_interactions w ++ added_ui /\
    code_examples (run env op w) = code_examples w /\
    generate_calls (run env op w) = generate_calls w ++ added_calls /\
    length added_calls <= length added_qa /\
    clock_reads (run env op w)
      = clock_reads w + length added_qa + length added_ui.
Proof.
  assert (Hseed : forall w0,
    exists added_qa added_ui added_calls,
      qa_pairs (snd (initialize_basic_qa env w0)) = qa_pairs w0 ++ added_qa /\
      Forall well_tagged added_qa /\
      user_interactions (snd (initialize_basic_qa env w0))
        = user_interactions w0 ++ added_ui /\
      code_examples (snd (initialize_basic_qa env w0)) = code_examples w0 /\
      generate_calls (snd (initialize_basic_qa env w0))
        = generate_calls w0 ++ added_calls /\
      length added_calls <= length added_qa /\
      clock_reads (snd (initialize_basic_qa env w0))
        = clock_reads w0 + length added_qa + length added_ui).
  { intros w0.
    destruct (initialize_basic_qa_well_tagged env w0) as (added & Hqa & Htag).
    pose proof (initialize_basic_qa_rows env w0) as (ts1 & ts2 & Hrows).
    rewrite Hqa in Hrows. apply app_inv_head in Hrows.
    exists added, [], []. rewrite !app_nil_r.
    repeat split; try assumption; try reflexivity.
    - cbn [length]. lia.
    - rewrite Hrows. cbn [basic_qa combine map length].
      unfold initialize_basic_qa, basic_qa. cbn [insert_all].
      unfold bind, now, insert_qa_pair, ret. cbn [snd clock_reads]. lia. }
  assert (Hnone : exists added_qa added_ui added_calls,
      qa_pairs w = qa_pairs w ++ added_qa /\
      Forall well_tagged added_qa /\
      user_interactions w = user_interactions w ++ added_ui /\
      code_examples w = code_examples w /\
      generate_calls w = generate_calls w ++ added_calls /\
      length added_calls <= length added_qa /\
      clock_reads w = clock_reads w + length added_qa + length added_ui).
  { exists [], [], []. rewrite !app_nil_r. cbn [length].
    repeat split; try constructor; lia. }
  destruct op as [| |question|question response helpful]; cbn [run].
  - unfold setup_knowledge_base.
    destruct (Nat.eqb (length (qa_pairs w)) 0); [apply Hseed | exact Hnone].
  - apply Hseed.
  - destruct (fetch_first (qa_match question) (qa_pairs w)) as [[row|]|e] eqn:Hscan;
      [| |rewrite (generate_response_raise env question w e Hscan); exact Hnone].
    + rewrite (generate_response_hit env question w row Hscan). exact Hnone.
    + rewrite (generate_response_miss env question w Hscan).
      cbn [snd qa_pairs user_interactions code_examples generate_calls clock_reads].
      eexists [_], [], [_]. rewrite !app_nil_r. cbn [length].
      repeat split; try reflexivity; try lia.
      constructor; [|constructor]. split.
      * apply analyze_question_category_known.
      * apply analyze_question_difficulty_known.
  - exists [], [Interaction.mk question response helpful (clock env (clock_reads w))], [].
    rewrite !app_nil_r. cbn [length].
    repeat split; try constructor; try reflexivity.
    unfold record_interaction, bind, now, insert_user_interaction.
    cbn [snd clock_reads]. lia.
Qed.

Lemma run_all_cons (op : operation) (ops : list operation) (w : World) :
  run_all env (op :: ops) w = run_all env ops (run env op w).
Proof. reflexivity. Qed.

Lemma run_all_effect (ops : list operation) (w : World) :
  exists added_qa added_ui added_calls,
    qa_pairs (run_all env ops w) = qa_pairs w ++ added_qa /\
    Forall well_tagged added_qa /\
    user_interactions (run_all env ops w) = user_interactions w ++ added_ui /\
    code_examples (run_all env ops w) = code_examples w /\
    generate_calls (run_all env ops w) = generate_calls w ++ added_calls /\
    length added_calls <= length added_qa /\
    clock_reads (run_all env ops w)
      = clock_reads w + length added_qa + length added_ui.
Proof.
  revert w. induction ops as [|op ops IH]; intros w.
  - exists [], [], []. rewrite !app_nil_r. cbn [length run_all fold_left].
    repeat split; try constructor; lia.
  - rewrite run_all_cons.
    destruct (run_effect op w)
      as (qa1 & ui1 & gc1 & Hqa1 & Htag1 & Hui1 & Hce1 & Hgc1 & Hle1 & Hck1).
    destruct (IH (run env op w))
      as (qa2 & ui2 & gc2 & Hqa2 & Htag2 & Hui2 & Hce2 & Hgc2 & Hle2 & Hck2).
    exists (qa1 ++ qa2), (ui1 ++ ui2), (gc1 ++ gc2).
    rewrite Hqa2, Hui2, Hce2, Hgc2, Hck2, Hqa1, Hui1, Hce1, Hgc1, Hck1.
    rewrite <- !app_assoc, !length_app.
    repeat split; try lia.
    apply Forall_app. split; assumption.
Qed.

(** X12: over any sequence of calls the three tables only grow at the
    end or stay.  The rows of [qa_pairs] and [user_interactions] that were
    there remain, in place and unchanged; the rows added to [qa_pairs] are
    tagged within the enumerations; [code_examples] is never written. *)
Theorem tables_are_append_only (ops : list operation) (w : World) :
  exists added_qa added_ui,
    qa_pairs (run_all env ops w) = qa_pairs w ++ added_qa /\
    Forall well_tagged added_qa /\
    user_interactions (run_all env ops w) = user_interactions w ++ added_ui /\
    code_examples (run_all env ops w) = code_examples w.
Proof.
  destruct (run_all_effect ops w)
    as (qa & ui & gc & Hqa & Htag & Hui & Hce & _).
  exists qa, ui. repeat split; assumption.
Qed.

(** X13: the books balance over any sequence of calls.  Every row written
    to [qa_pairs] or [user_interactions] has read the clock once and
    nothing else reads it; and every call of the model is followed by
    one cached row, so the model is called at most as often as rows are
    added to [qa_pairs]. *)
Theorem clock_and_model_bookkeeping (ops : list operation) (w : World) :
  clock_reads (run_all env ops w) + length (qa_pairs w)
    + length (user_interactions w)
  = clock_reads w + length (qa_pairs (run_all env ops w))
    + length (user_interactions (run_all env ops w)) /\
  length (generate_calls (run_all env ops w)) + length (qa_pairs w)
  <= length (generate_calls w) + length (qa_pairs (run_all env ops w)).
Proof.
  destruct (run_all_effect ops w)
    as (qa & ui & gc & Hqa & _ & Hui & _ & Hgc & Hle & Hck).
  rewrite Hqa, Hui, Hgc, Hck, !length_app. split; lia.
Qed.

(** X14: the program never writes a code example.  On a store it has
    built by itself from the empty one, by any sequence of calls, the
    [code_example] of every response it returns is [None]. *)
Theorem no_code_example_on_own_store
    (ops : list operation) (question : string) (r : Response.t) :
  fst (generate_response env question (run_all env ops fresh)) = Ok r ->
  Response.code_example r = None.
Proof.
  intros Hr. rewrite (generate_response_fields question _ r Hr).
  cbn [Response.code_example]. unfold code_example_for.
  destruct (run_all_effect ops fresh) as (_ & _ & _ & _ & _ & _ & -> & _).
  reflexivity.
Qed.

(** ** The example script *)

Lemma setup_knowledge_base_ok (w : World) :
  setup_knowledge_base env w = (Ok tt, snd (setup_knowledge_base env w)).
Proof.
  unfold setup_knowledge_base.
  destruct (Nat.eqb (length (qa_pairs w)) 0); reflexivity.
Qed.

(** The script when the call of [generate_response] returns. *)
Lemma main_eq (w : World) (r : Response.t) :
  fst (generate_response env "How do I structure a Flask project for deployment?"
         (snd (setup_knowledge_base env w))) = Ok r ->
  main env w =
  (Ok r,
   snd (record_interaction env
          "How do I structure a Flask project for deployment?"
          (Response.answer r) true
          (snd (generate_response env
                  "How do I structure a Flask project for deployment?"
                  (snd (setup_knowledge_base env w)))))).
Proof.
  intros Hr. unfold main, bind.
  pose proof (setup_knowledge_base_ok w) as Hs.
  destruct (setup_knowledge_base env w) as [o w0].
  cbn [snd] in *. injection Hs as ->.
  destruct (generate_response env _ w0) as [o' w0'].
  cbn [fst] in Hr. subst o'. reflexivity.
Qed.

Lemma generate_response_keeps_nonempty (question : string) (w : World) :
  Nat.eqb (length (qa_pairs w)) 0 = false ->
  Nat.eqb (length (qa_pairs (snd (generate_response env question w)))) 0 = false.
Proof.
  intros Hlen.
  destruct (run_effect (GenerateResponse question) w)
    as (qa & _ & _ & Hqa & _).
  cbn [run] in Hqa. rewrite Hqa, length_app.
  apply Nat.eqb_neq. apply Nat.eqb_neq in Hlen. lia.
Qed.

(** X15: the example script returns, and running it a second time on the
    store the first run left prints the same dict, does not call the
    model, adds no row to [qa_pairs], and logs one more interaction with
    the same response. *)
Theorem main_second_run_reuses_first_answer (w : World) :
  exists r,
    fst (main env w) = Ok r /\
    fst (main env (snd (main env w))) = Ok r /\
    generate_calls (snd (main env (snd (main env w))))
      = generate_calls (snd (main env w)) /\
    qa_pairs (snd (main env (snd (main env w)))) = qa_pairs (snd (main env w)) /\
    user_interactions (snd (main env (snd (main env w))))
      = user_interactions (snd (main env w)) ++
        [Interaction.mk "How do I structure a Flask project for deployment?"
           (Response.answer r) true
           (clock env (clock_reads (snd (main env w))))].
Proof.
  set (question := "How do I structure a Flask project for deployment?").
  set (w0 := snd (setup_knowledge_base env w)).
  assert (Hle : within_limit question = true) by reflexivity.
  destruct (asked_question_is_cached question w0 Hle)
    as (row & r & Hscan & Hr & Hanswer).
  exists r.
  pose proof (main_eq w r Hr) as Hfirst. fold question w0 in Hfirst.
  set (w0' := snd (generate_response env question w0)) in *.
  set (w1 := snd (record_interaction env question (Response.answer r) true w0')) in *.
  assert (Hqa1 : qa_pairs w1 = qa_pairs w0') by reflexivity.
  assert (Hce1 : code_examples w1 = code_examples w0') by reflexivity.
  assert (Hlen1 : Nat.eqb (length (qa_pairs w1)) 0 = false).
  { rewrite Hqa1. apply generate_response_keeps_nonempty.
    apply setup_knowledge_base_nonempty. }
  assert (Hgen : generate_response env question w1 = (Ok r, w1)).
  { rewrite (generate_response_hit_any question w0' w1 row Hscan Hqa1 Hce1).
    apply pair_equal_spec. split; [|reflexivity]. f_equal.
    rewrite (generate_response_fields question w0 r Hr), Hanswer.
    unfold code_example_for, w0'.
    rewrite generate_response_code_examples. reflexivity. }
  assert (Hsecond : main env w1 =
            (Ok r, snd (record_interaction env question (Response.answer r) true w1))).
  { assert (Hskip : snd (setup_knowledge_base env w1) = w1)
      by (rewrite (setup_knowledge_base_skips w1 Hlen1); reflexivity).
    pose proof (main_eq w1 r) as Hm. fold question in Hm.
    rewrite Hskip, Hgen in Hm. apply Hm. reflexivity. }
  rewrite Hfirst. cbn [fst snd]. rewrite Hsecond. cbn [fst snd].
  repeat split.
Qed.

End StoreProperties.

(** ** The further properties on concrete stores *)

(** A question about lists asked twice. *)
Lemma second_ask_is_served_from_cache_witness :
  generate_response Stub.env "What is a list?"
    (snd (generate_response Stub.env "What is a list?" Stub.seeded))
  = (fst (generate_response Stub.env "What is a list?" Stub.seeded),
     snd (generate_response Stub.env "What is a list?" Stub.seeded)).
Proof.
  apply second_ask_is_served_from_cache. reflexivity.
Defined.

(** The question comes back in small letters. *)
Lemma same_question_in_other_case_is_served_from_cache_witness :
  generate_response Stub.env "how do i use docker?"
    (snd (generate_response Stub.env "How do I use Docker?" Stub.seeded))
  = (fst (generate_response Stub.env "How do I use Docker?" Stub.seeded),
     snd (generate_response Stub.env "How do I use Docker?" Stub.seeded)).
Proof.
  apply same_question_in_other_case_is_served_from_cache; reflexivity.
Defined.

(** A docker question held in a longer stored one. *)
Lemma contained_question_is_served_from_store_witness :
  snd (generate_response Stub.env "Docker volumes"
         (mkWorld [QAPair.mk "How do I use Docker volumes?" "Mount them."
                             "docker" "beginner" 0] [] [] [] 0))
  = mkWorld [QAPair.mk "How do I use Docker volumes?" "Mount them."
                       "docker" "beginner" 0] [] [] [] 0.
Proof.
  apply (contained_question_is_served_from_store
           Stub.env "Docker volumes" "How do I use " "?" _
           (QAPair.mk "How do I use Docker volumes?" "Mount them."
                      "docker" "beginner" 0));
    try reflexivity.
  left. reflexivity.
Defined.

(** The empty question against a stored question about lists. *)
Lemma empty_question_takes_any_general_beginner_row_witness :
  snd (generate_response Stub.env ""
         (mkWorld [QAPair.mk "What is a list?" "A sequence." "general"
                             "beginner" 0] [] [] [] 0))
  = mkWorld [QAPair.mk "What is a list?" "A sequence." "general"
                       "beginner" 0] [] [] [] 0.
Proof.
  apply (empty_question_takes_any_general_beginner_row
           Stub.env _ (QAPair.mk "What is a list?" "A sequence." "general"
                                 "beginner" 0));
    try reflexivity.
  left. reflexivity.
Defined.

(** A response on the store the first start and one question made. *)
Lemma no_code_example_on_own_store_witness :
  exists r,
    fst (generate_response Stub.env "What is a list?"
           (run_all Stub.env [Setup; GenerateResponse "How do I use Docker?"]
                    fresh)) = Ok r /\
    Response.code_example r = None.
Proof.
  destruct (generate_response_returns Stub.env "What is a list?"
              (run_all Stub.env [Setup; GenerateResponse "How do I use Docker?"]
                       fresh) eq_refl) as [r Hr].
  exists r. split; [exact Hr|].
  exact (no_code_example_on_own_store Stub.env _ _ r Hr).
Defined.


